(** * SpiderBot: a shallow embedding of [crawler.py]

    The crawl engine of [WebCrawler] is embedded as functions over an
    explicit [World]: the attributes of the controller object, the values of
    the widgets it reads and writes, the storage files, the worker threads
    and a history of the calls made to the outside (HTTP requests, records
    appended, sleeps, dialogs).  Methods are written in a small state and
    exception monad so that every [try]/[except] of the source has its
    counterpart; worker threads are interleaved at the granularity of the
    statements of [worker]. *)

From Stdlib Require Import ZArith Lia Ascii QArith Lqa.
From stdpp Require Import base option list gmap strings pretty.

Close Scope Q_scope.
Open Scope string_scope.
Open Scope list_scope.
Open Scope nat_scope.

(** ** Exceptions *)

Inductive exn :=
| ValueError (msg : string)
| QueueEmpty                     (* queue.Empty *)
| StopIteration
| OSError (msg : string)
| RequestException (msg : string)
| CsvError (msg : string).       (* csv.Error *)

(** [str(e)] *)
Definition str (e : exn) : string :=
  match e with
  | ValueError msg | OSError msg | RequestException msg | CsvError msg => msg
  | QueueEmpty | StopIteration => ""
  end.

(** ** The Python runtime and the libraries the crawler imports

    [urllib.parse], [bs4], [csv], [time] and the builtins [int], [float] and
    [str.strip] are not part of the repository: the model is parametric in
    them.  An operation that can raise returns on the left the message of
    its [ValueError] ([time.sleep] also rejects a delay too large with an
    [OverflowError]; the crawler treats both alike).

    A file is the text it holds.  [csv_writerow row] is the text that
    [csv.writer(f).writerow(row)] adds to a file opened with [newline='']:
    one record, quoted where needed, and its line end.  [csv_reader text]
    is what iterating [csv.reader(f)] gives on a file of that text opened
    for reading: the rows it yields, in order, and the exception that ends
    the iteration when the decoder or the reader refuses what comes next
    ([UnicodeDecodeError], a [ValueError], or [csv.Error]).  Nothing is
    assumed of the two but that one record written alone is never read back
    as several rows. *)

Record ParseResult := { scheme : string; netloc : string }.

Class PyRuntime := {
  pyfloat : Type;
  float_of_str : string → string + pyfloat;       (* float(s) *)
  float_ltz : pyfloat → bool;                     (* d < 0 *)
  seconds : pyfloat → Q;                          (* the value of a finite float *)
  time_sleep : pyfloat → option string;           (* None: returns normally *)
  time_sleep_negative : ∀ d, float_ltz d = true → is_Some (time_sleep d);
  int_of_str : string → option Z;                 (* int(s); None: ValueError *)
  str_strip : string → string;                    (* s.strip() *)
  urlparse : string → string + ParseResult;
  urljoin : string → string → string + string;
  find_all_a_href : string → list string;         (* hrefs of soup.find_all('a', href=True) *)
  csv_writerow : list string → string;
  csv_reader : string → list (list string) * option exn;
  csv_reader_writerow : ∀ row, length (csv_reader (csv_writerow row)).1 ≤ 1
}.

(** [s.startswith(('http://', 'https://'))] *)
Definition startswith_http (s : string) : bool :=
  String.prefix "http://" s || String.prefix "https://" s.

(** ** A reference runtime

    An executable instance over ASCII text, used to run the model on
    concrete sessions.  It follows CPython on the inputs of the examples:
    decimal literals, [scheme://host/path] URLs, absolute and root-relative
    links, anchors written [<a href='...'>], and CSV files of ASCII text,
    on which neither the decoder nor the reader raises. *)

Module Reference.

Fixpoint lstrip (s : string) : string :=
  match s with
  | String a s' => if Ascii.is_space a then lstrip s' else s
  | EmptyString => EmptyString
  end.

Definition strip (s : string) : string :=
  String.rev (lstrip (String.rev (lstrip s))).

(** Value of a run of decimal digits, most significant first. *)
Fixpoint digits (acc : Z) (s : string) : option Z :=
  match s with
  | EmptyString => Some acc
  | String a s' =>
    match Ascii.is_nat a with
    | Some d => digits (10 * acc + Z.of_nat d) s'
    | None => None
    end
  end.

Definition unsigned (s : string) : option Z :=
  match s with
  | EmptyString => None
  | _ => digits 0 s
  end.

Definition signed {A} (opp : A → A) (parse : string → option A) (s : string) : option A :=
  match s with
  | String "-"%char s' => opp <$> parse s'
  | String "+"%char s' => parse s'
  | _ => parse s
  end.

Definition int (s : string) : option Z := signed Z.opp unsigned (strip s).

(** A decimal literal [ddd] or [ddd.ddd]: a float is held as the rational
    it stands for. *)
Definition decimal (s : string) : option Q :=
  match String.index 0 "." s with
  | None => inject_Z <$> unsigned s
  | Some i =>
    let fraction := String.substring (S i) (String.length s - S i) s in
    (λ z, Qred (Qmake z (Z.to_pos (10 ^ Z.of_nat (String.length fraction)))))
      <$> unsigned (String.substring 0 i s +:+ fraction)
  end.

Definition float (s : string) : string + Q :=
  match signed Qopp decimal (strip s) with
  | Some d => inr d
  | None => inl ("could not convert string to float: '" +:+ s +:+ "'")
  end.

Definition negative (d : Q) : bool := negb (Qle_bool 0 d).

Definition sleep (d : Q) : option string :=
  if negative d then Some "sleep length must be non-negative" else None.

(** Length of the prefix of [s] before the first of [/], [?] and [#]. *)
Fixpoint authority_length (s : string) : nat :=
  match s with
  | EmptyString => 0
  | String a s' =>
    if Ascii.eqb a "/" || Ascii.eqb a "?" || Ascii.eqb a "#" then 0
    else S (authority_length s')
  end.

Definition parse (url : string) : string + ParseResult :=
  match String.index 0 "://" url with
  | None => inr {| scheme := ""; netloc := "" |}
  | Some i =>
    let rest := String.substring (i + 3) (String.length url - (i + 3)) url in
    inr {| scheme := String.substring 0 i url;
           netloc := String.substring 0 (authority_length rest) rest |}
  end.

Definition join (base href : string) : string + string :=
  match String.index 0 "://" href with
  | Some _ => inr href
  | None =>
    match parse base with
    | inr p => inr (scheme p +:+ "://" +:+ netloc p +:+
                    (if String.prefix "/" href then href else "/" +:+ href))
    | inl e => inl e
    end
  end.

(** The text up to the closing quote, and what follows it. *)
Fixpoint until_quote (s : string) : string * string :=
  match s with
  | EmptyString => (EmptyString, EmptyString)
  | String a s' =>
    if Ascii.eqb a "'" then (EmptyString, s')
    else let '(v, r) := until_quote s' in (String a v, r)
  end.

Fixpoint anchors (fuel : nat) (html : string) : list string :=
  match fuel with
  | O => []
  | S fuel' =>
    match String.index 0 "<a href='" html with
    | None => []
    | Some i =>
      let '(href, rest) :=
        until_quote (String.substring (i + 9) (String.length html - (i + 9)) html) in
      href :: anchors fuel' rest
    end
  end.

Definition hrefs (html : string) : list string :=
  anchors (String.length html) html.

(** *** [csv], dialect [excel]

    [csv.writer] with the default dialect: fields are separated by commas, a
    field that holds a comma, a quote or a line end is written between
    quotes with its quotes doubled, and the record ends in CR LF. *)

Definition quotechar : ascii := "034"%char.
Definition CR : ascii := "013"%char.
Definition LF : ascii := "010"%char.

Definition special (c : ascii) : bool :=
  Ascii.eqb c "," || Ascii.eqb c quotechar || Ascii.eqb c CR || Ascii.eqb c LF.

Fixpoint plain (s : string) : bool :=
  match s with
  | EmptyString => true
  | String c s' => negb (special c) && plain s'
  end.

Fixpoint doubled (s : string) : string :=
  match s with
  | EmptyString => EmptyString
  | String c s' =>
    if Ascii.eqb c quotechar then String c (String c (doubled s'))
    else String c (doubled s')
  end.

Definition quoted (s : string) : string :=
  String quotechar (doubled s +:+ String quotechar EmptyString).

Definition escape (s : string) : string := if plain s then s else quoted s.

Fixpoint record (row : list string) : string :=
  match row with
  | [] => EmptyString
  | f :: rest =>
    escape f +:+ match rest with [] => EmptyString | _ => "," +:+ record rest end
  end.

(** A record of one empty field is written as a pair of quotes. *)
Definition writerow (row : list string) : string :=
  match row with
  | [EmptyString] => quoted EmptyString
  | _ => record row
  end +:+ String CR (String LF EmptyString).

(** [csv.reader] over a file opened in text mode with the default
    [newline=None]: the states are those of the reader of CPython (the
    dialect has no escape character), and [after_cr] is the state of the
    text layer, which hands CR LF and a lone CR to the reader as LF. *)
Inductive state :=
| StartRecord | StartField | InField | InQuotedField | QuoteInQuotedField.

Record parser := {
  at_state : state;
  partial : string;                 (* the field being read *)
  fields : list string;             (* the fields of the record being read *)
  rows : list (list string);        (* the records read *)
  after_cr : bool
}.

Definition start : parser :=
  {| at_state := StartRecord; partial := ""; fields := []; rows := [];
     after_cr := false |}.

Definition add_char (c : ascii) (st : state) (p : parser) : parser :=
  {| at_state := st; partial := partial p +:+ String c EmptyString;
     fields := fields p; rows := rows p; after_cr := after_cr p |}.

Definition save_field (st : state) (p : parser) : parser :=
  {| at_state := st; partial := ""; fields := fields p ++ [partial p];
     rows := rows p; after_cr := after_cr p |}.

Definition enter (st : state) (p : parser) : parser :=
  {| at_state := st; partial := partial p; fields := fields p; rows := rows p;
     after_cr := after_cr p |}.

(** The record is complete. *)
Definition yield (p : parser) : parser :=
  {| at_state := StartRecord; partial := ""; fields := []; rows := rows p ++ [fields p];
     after_cr := after_cr p |}.

(** A character other than a line end. *)
Definition process_char (c : ascii) (p : parser) : parser :=
  match at_state p with
  | StartRecord | StartField =>
    if Ascii.eqb c quotechar then enter InQuotedField p
    else if Ascii.eqb c "," then save_field StartField p
    else add_char c InField p
  | InField =>
    if Ascii.eqb c "," then save_field StartField p
    else add_char c InField p
  | InQuotedField =>
    if Ascii.eqb c quotechar then enter QuoteInQuotedField p
    else add_char c InQuotedField p
  | QuoteInQuotedField =>
    if Ascii.eqb c quotechar then add_char c InQuotedField p
    else if Ascii.eqb c "," then save_field StartField p
    else add_char c InField p
  end.

(** The line end of a line and the end of that line: an empty line is an
    empty record, and inside quotes the line end belongs to the field. *)
Definition line_end (p : parser) : parser :=
  match at_state p with
  | StartRecord => yield p
  | InQuotedField => add_char LF InQuotedField p
  | _ => yield (save_field StartRecord p)
  end.

Definition seen_cr (b : bool) (p : parser) : parser :=
  {| at_state := at_state p; partial := partial p; fields := fields p; rows := rows p;
     after_cr := b |}.

Definition read_char (c : ascii) (p : parser) : parser :=
  if Ascii.eqb c CR then seen_cr true (line_end p)
  else if Ascii.eqb c LF then
    (if after_cr p then seen_cr false p else seen_cr false (line_end p))
  else seen_cr false (process_char c p).

Fixpoint feed (p : parser) (text : string) : parser :=
  match text with
  | EmptyString => p
  | String c text' => feed (read_char c p) text'
  end.

(** The end of the text ends the record being read, if any. *)
Definition finish (p : parser) : list (list string) :=
  match at_state p with
  | StartRecord => rows p
  | _ => rows (yield (save_field StartRecord p))
  end.

Definition reader (text : string) : list (list string) * option exn :=
  (finish (feed start text), None).

Lemma sleep_negative d : negative d = true → is_Some (sleep d).
Proof. unfold sleep. intros ->. eauto. Qed.

Lemma feed_app p s t : feed p (s +:+ t) = feed (feed p s) t.
Proof. revert p. induction s as [|c s IH]; intros p; [done|]. apply IH. Qed.

(** Between two fields the reader is not inside quotes. *)
Definition outside (p : parser) : Prop := at_state p ≠ InQuotedField.

Definition fresh (p : parser) : Prop :=
  at_state p = StartRecord ∨ at_state p = StartField.

Ltac chars :=
  repeat match goal with
         | |- context [Ascii.eqb ?a ?b] => destruct (Ascii.eqb_spec a b)
         | H : context [Ascii.eqb ?a ?b] |- _ => destruct (Ascii.eqb_spec a b)
         end.

Lemma feed_plain s p :
  plain s = true → outside p →
  rows (feed p s) = rows p ∧ outside (feed p s).
Proof.
  revert p. induction s as [|c s IH]; intros p Hs Hp; [done|].
  cbn in Hs. apply andb_prop in Hs as [Hc Hs]. apply negb_true_iff in Hc.
  cbn [feed].
  assert (Hr : rows (read_char c p) = rows p ∧ outside (read_char c p)).
  { unfold read_char, process_char, special, outside in *. chars; try done;
      destruct (at_state p); cbn; done. }
  destruct Hr as [Hr Ho]. destruct (IH _ Hs Ho) as [-> ?]. done.
Qed.

Lemma feed_doubled s p :
  at_state p = InQuotedField →
  rows (feed p (doubled s)) = rows p ∧ at_state (feed p (doubled s)) = InQuotedField.
Proof.
  revert p. induction s as [|c s IH]; intros p Hp; [done|].
  cbn [doubled]. destruct (Ascii.eqb_spec c quotechar) as [->|Hq].
  - cbn [feed].
    assert (Hr : rows (read_char quotechar (read_char quotechar p)) = rows p ∧
                 at_state (read_char quotechar (read_char quotechar p)) = InQuotedField).
    { unfold read_char, process_char. cbn. rewrite Hp. cbn. done. }
    destruct Hr as [Hr Hst]. destruct (IH _ Hst) as [-> ?]. done.
  - cbn [feed].
    assert (Hr : rows (read_char c p) = rows p ∧
                 at_state (read_char c p) = InQuotedField).
    { unfold read_char, process_char, line_end. chars; rewrite ?Hp; cbn; try done;
        destruct (after_cr p); cbn; rewrite ?Hp; done. }
    destruct Hr as [Hr Hst]. destruct (IH _ Hst) as [-> ?]. done.
Qed.

Lemma feed_quoted s p :
  fresh p → rows (feed p (quoted s)) = rows p ∧ outside (feed p (quoted s)).
Proof.
  intros Hp. unfold quoted. cbn [feed]. rewrite feed_app.
  assert (Hq : rows (read_char quotechar p) = rows p ∧
               at_state (read_char quotechar p) = InQuotedField).
  { unfold read_char, process_char. cbn. by destruct Hp as [-> | ->]. }
  destruct Hq as [Hr Hst].
  destruct (feed_doubled s _ Hst) as [Hr' Hst']. cbn [feed].
  set (q := feed _ (doubled s)) in *.
  unfold read_char, process_char, outside. cbn. rewrite Hst'. cbn.
  split; [congruence|done].
Qed.

Lemma fresh_outside p : fresh p → outside p.
Proof. unfold outside. by intros [-> | ->]. Qed.

Lemma feed_escape s p :
  fresh p → rows (feed p (escape s)) = rows p ∧ outside (feed p (escape s)).
Proof.
  intros Hp. unfold escape. destruct (plain s) eqn:Hs.
  - apply feed_plain; [done|by apply fresh_outside].
  - by apply feed_quoted.
Qed.

Lemma feed_comma p :
  outside p →
  rows (read_char ","%char p) = rows p ∧ fresh (read_char ","%char p).
Proof.
  unfold outside, fresh, read_char, process_char. intros Hp. cbn.
  destruct (at_state p); cbn; try done; auto.
Qed.

Lemma feed_record row p :
  fresh p → rows (feed p (record row)) = rows p ∧ outside (feed p (record row)).
Proof.
  revert p. induction row as [|f rest IH]; intros p Hp.
  - split; [done|by apply fresh_outside].
  - cbn [record]. rewrite feed_app.
    destruct (feed_escape f p Hp) as [Hr Ho].
    destruct rest as [|g rest]; [done|].
    rewrite feed_app. cbn [feed].
    destruct (feed_comma _ Ho) as [Hr' Hf].
    destruct (IH _ Hf) as [Hr'' Ho']. split; [congruence|done].
Qed.

Lemma feed_line_end p :
  outside p →
  finish (feed p (String CR (String LF EmptyString))) = rows p ++ [
    match at_state p with
    | StartRecord => fields p
    | _ => fields p ++ [partial p]
    end].
Proof.
  unfold outside, finish. intros Hp. cbn [feed]. unfold read_char, line_end. cbn.
  destruct (at_state p); cbn; done.
Qed.

Lemma reader_writerow row : length (reader (writerow row)).1 ≤ 1.
Proof.
  unfold reader, writerow. cbn [fst]. rewrite feed_app.
  assert (Hf : fresh start) by (by left).
  assert (∃ p, feed start (match row with
                           | [EmptyString] => quoted EmptyString
                           | _ => record row
                           end) = p ∧ rows p = [] ∧ outside p) as (p & -> & Hr & Ho).
  { eexists. split; [done|].
    destruct row as [|[|c f] [|g rest]];
      first [apply (feed_quoted "" start Hf) | apply (feed_record _ start Hf)]. }
  rewrite (feed_line_end p Ho), Hr. done.
Qed.

#[export] Instance runtime : PyRuntime := {|
  pyfloat := Q;
  float_of_str := float;
  float_ltz := negative;
  seconds := λ d, d;
  time_sleep := sleep;
  time_sleep_negative := sleep_negative;
  int_of_str := int;
  str_strip := strip;
  urlparse := parse;
  urljoin := join;
  find_all_a_href := hrefs;
  csv_writerow := writerow;
  csv_reader := reader;
  csv_reader_writerow := reader_writerow
|}.

End Reference.
(** ** Data *)

Record Response := { status_code : Z; text : string }.

(** The outcome of [requests.get]: a response, or the exception it raised. *)
Definition fetch_result : Type := exn + Response.

(** The text of the entry widgets and the state of the check box. *)
Record Entries := {
  start_url_entry : string;
  max_threads_entry : string;
  politeness_delay_entry : string;
  storage_file_entry : string;
  restrict_domain : bool
}.

(** Where a worker thread stands in [worker]: each constructor is the
    statement it executes next, with the local variables that are live. *)
Inductive pc :=
| AtLoop                                             (* while self.crawler_running *)
| AtGet                                              (* url = self.url_queue.get(timeout=2) *)
| AtCheck (url : string)                             (* first  with self.visited_lock *)
| AtCrawl (url : string)                             (* links, status = self.crawl_page(url) *)
| AtSave (url : string) (links : list string) (status : Z)   (* self.save_url(url, status) *)
| AtEnqueue (links : list string)                    (* second with self.visited_lock *)
| AtSleep                                            (* time.sleep(float(...get())) *)
| AtDone                                             (* self.url_queue.task_done() *)
| Exited.

Section Crawler.
Context `{RT : PyRuntime}.

(** Calls that leave the process, in the order they are made. *)
Inductive obs :=
| HttpGet (url : string)
| Recorded (url timestamp : string) (status : Z)
| Slept (d : pyfloat)
| Dialog (kind title message : string).

Record World := {
  (* attributes of WebCrawler *)
  url_queue : list string;
  unfinished_tasks : nat;                 (* Queue.unfinished_tasks *)
  visited_urls : gset string;
  crawler_running : bool;
  (* widgets *)
  entries : Entries;
  queue_count : string;
  visited_count : string;
  current_status : string;
  url_table : list (list string);
  log_area : list string;
  (* outside *)
  files : gmap string string;             (* the files, each with its text *)
  threads : list pc;
  timers : nat;                           (* pending root.after callbacks *)
  history : list obs
}.

Definition set_url_queue (v : list string) (w : World) : World :=
  {| url_queue := v; unfinished_tasks := unfinished_tasks w;
     visited_urls := visited_urls w; crawler_running := crawler_running w;
     entries := entries w; queue_count := queue_count w;
     visited_count := visited_count w; current_status := current_status w;
     url_table := url_table w; log_area := log_area w; files := files w;
     threads := threads w; timers := timers w; history := history w |}.

Definition set_unfinished_tasks (v : nat) (w : World) : World :=
  {| url_queue := url_queue w; unfinished_tasks := v; visited_urls := visited_urls w;
     crawler_running := crawler_running w; entries := entries w;
     queue_count := queue_count w; visited_count := visited_count w;
     current_status := current_status w; url_table := url_table w;
     log_area := log_area w; files := files w; threads := threads w;
     timers := timers w; history := history w |}.

Definition set_visited_urls (v : gset string) (w : World) : World :=
  {| url_queue := url_queue w; unfinished_tasks := unfinished_tasks w;
     visited_urls := v; crawler_running := crawler_running w; entries := entries w;
     queue_count := queue_count w; visited_count := visited_count w;
     current_status := current_status w; url_table := url_table w;
     log_area := log_area w; files := files w; threads := threads w;
     timers := timers w; history := history w |}.

Definition set_crawler_running (v : bool) (w : World) : World :=
  {| url_queue := url_queue w; unfinished_tasks := unfinished_tasks w;
     visited_urls := visited_urls w; crawler_running := v; entries := entries w;
     queue_count := queue_count w; visited_count := visited_count w;
     current_status := current_status w; url_table := url_table w;
     log_area := log_area w; files := files w; threads := threads w;
     timers := timers w; history := history w |}.

Definition set_entries (v : Entries) (w : World) : World :=
  {| url_queue := url_queue w; unfinished_tasks := unfinished_tasks w;
     visited_urls := visited_urls w; crawler_running := crawler_running w;
     entries := v; queue_count := queue_count w; visited_count := visited_count w;
     current_status := current_status w; url_table := url_table w;
     log_area := log_area w; files := files w; threads := threads w;
     timers := timers w; history := history w |}.

Definition set_queue_count (v : string) (w : World) : World :=
  {| url_queue := url_queue w; unfinished_tasks := unfinished_tasks w;
     visited_urls := visited_urls w; crawler_running := crawler_running w;
     entries := entries w; queue_count := v; visited_count := visited_count w;
     current_status := current_status w; url_table := url_table w;
     log_area := log_area w; files := files w; threads := threads w;
     timers := timers w; history := history w |}.

Definition set_visited_count (v : string) (w : World) : World :=
  {| url_queue := url_queue w; unfinished_tasks := unfinished_tasks w;
     visited_urls := visited_urls w; crawler_running := crawler_running w;
     entries := entries w; queue_count := queue_count w; visited_count := v;
     current_status := current_status w; url_table := url_table w;
     log_area := log_area w; files := files w; threads := threads w;
     timers := timers w; history := history w |}.

Definition set_current_status (v : string) (w : World) : World :=
  {| url_queue := url_queue w; unfinished_tasks := unfinished_tasks w;
     visited_urls := visited_urls w; crawler_running := crawler_running w;
     entries := entries w; queue_count := queue_count w;
     visited_count := visited_count w; current_status := v; url_table := url_table w;
     log_area := log_area w; files := files w; threads := threads w;
     timers := timers w; history := history w |}.

Definition set_url_table (v : list (list string)) (w : World) : World :=
  {| url_queue := url_queue w; unfinished_tasks := unfinished_tasks w;
     visited_urls := visited_urls w; crawler_running := crawler_running w;
     entries := entries w; queue_count := queue_count w;
     visited_count := visited_count w; current_status := current_status w;
     url_table := v; log_area := log_area w; files := files w; threads := threads w;
     timers := timers w; history := history w |}.

Definition set_log_area (v : list string) (w : World) : World :=
  {| url_queue := url_queue w; unfinished_tasks := unfinished_tasks w;
     visited_urls := visited_urls w; crawler_running := crawler_running w;
     entries := entries w; queue_count := queue_count w;
     visited_count := visited_count w; current_status := current_status w;
     url_table := url_table w; log_area := v; files := files w; threads := threads w;
     timers := timers w; history := history w |}.

Definition set_files (v : gmap string string) (w : World) : World :=
  {| url_queue := url_queue w; unfinished_tasks := unfinished_tasks w;
     visited_urls := visited_urls w; crawler_running := crawler_running w;
     entries := entries w; queue_count := queue_count w;
     visited_count := visited_count w; current_status := current_status w;
     url_table := url_table w; log_area := log_area w; files := v;
     threads := threads w; timers := timers w; history := history w |}.

Definition set_threads (v : list pc) (w : World) : World :=
  {| url_queue := url_queue w; unfinished_tasks := unfinished_tasks w;
     visited_urls := visited_urls w; crawler_running := crawler_running w;
     entries := entries w; queue_count := queue_count w;
     visited_count := visited_count w; current_status := current_status w;
     url_table := url_table w; log_area := log_area w; files := files w; threads := v;
     timers := timers w; history := history w |}.

Definition set_timers (v : nat) (w : World) : World :=
  {| url_queue := url_queue w; unfinished_tasks := unfinished_tasks w;
     visited_urls := visited_urls w; crawler_running := crawler_running w;
     entries := entries w; queue_count := queue_count w;
     visited_count := visited_count w; current_status := current_status w;
     url_table := url_table w; log_area := log_area w; files := files w;
     threads := threads w; timers := v; history := history w |}.

Definition set_history (v : list obs) (w : World) : World :=
  {| url_queue := url_queue w; unfinished_tasks := unfinished_tasks w;
     visited_urls := visited_urls w; crawler_running := crawler_running w;
     entries := entries w; queue_count := queue_count w;
     visited_count := visited_count w; current_status := current_status w;
     url_table := url_table w; log_area := log_area w; files := files w;
     threads := threads w; timers := timers w; history := v |}.
Definition observe (o : obs) (w : World) : World :=
  set_history (history w ++ [o]) w.

(** ** State and exceptions

    A computation reads and updates the world and either returns a value or
    raises; the world keeps the updates made before the exception. *)

Definition M (A : Type) : Type := World → (exn + A) * World.

#[local] Instance M_ret : MRet M := λ A a w, (inr a, w).
#[local] Instance M_bind : MBind M := λ A B f m w,
  match m w with
  | (inr a, w') => f a w'
  | (inl e, w') => (inl e, w')
  end.

Definition raise {A} (e : exn) : M A := λ w, (inl e, w).
Definition lift {A} (r : exn + A) : M A := λ w, (r, w).

(** The result of a library call that raises [ValueError]. *)
Definition value {A} (r : string + A) : M A := λ w,
  match r with
  | inl msg => (inl (ValueError msg), w)
  | inr a => (inr a, w)
  end.
Definition gets {A} (f : World → A) : M A := λ w, (inr (f w), w).
Definition modify (f : World → World) : M unit := λ w, (inr tt, f w).

(** [try: body  except Exception as e: handler e] *)
Definition try_except {A} (body : M A) (handler : exn → M A) : M A := λ w,
  match body w with
  | (inl e, w') => handler e w'
  | r => r
  end.

(** The world a callback leaves behind. *)
Definition exec {A} (m : M A) (w : World) : World := (m w).2.

(** ** [queue.Queue] *)

Definition put (item : string) : M unit :=
  modify (λ w, set_unfinished_tasks (S (unfinished_tasks w))
                 (set_url_queue (url_queue w ++ [item]) w)).

(** [get(timeout=2)] on an empty queue ends in [queue.Empty]. *)
Definition get : M string := λ w,
  match url_queue w with
  | [] => (inl QueueEmpty, w)
  | item :: rest => (inr item, set_url_queue rest w)
  end.

Definition task_done : M unit := λ w,
  match unfinished_tasks w with
  | O => (inl (ValueError "task_done() called too many times"), w)
  | S n => (inr tt, set_unfinished_tasks n w)
  end.

(** ** Widgets, dialogs and files *)

(** [log]: the line is kept without the wall-clock prefix the widget shows. *)
Definition log (message : string) : M unit :=
  modify (λ w, set_log_area (log_area w ++ [message]) w).

Definition messagebox (kind title message : string) : M unit :=
  modify (observe (Dialog kind title message)).

Definition storage_file : M string := gets (λ w, storage_file_entry (entries w)).

Definition path_exists (filename : string) : M bool :=
  gets (λ w, bool_decide (is_Some (files w !! filename))).

(** An operation on the file system fails when the environment says so. *)
Definition io_guard (io : option exn) : M unit :=
  match io with
  | Some e => raise e
  | None => mret tt
  end.

Definition file_text (filename : string) (w : World) : string :=
  default "" (files w !! filename).

(** [csv.writer(f).writerow(row)] on a file opened for appending. *)
Definition writerow (filename : string) (row : list string) : M unit :=
  modify (λ w, set_files (<[filename := file_text filename w +:+ csv_writerow row]>
                            (files w)) w).

Definition setup_stats : M unit :=
  modify (set_queue_count "0");;
  modify (set_visited_count "0");;
  modify (set_current_status "Idle").

Definition update_stats : M unit :=
  running ← gets crawler_running;
  if running : bool then
    modify (λ w, set_queue_count (pretty (length (url_queue w))) w);;
    modify (λ w, set_visited_count (pretty (size (visited_urls w))) w);;
    modify (λ w, set_timers (S (timers w)) w)
  else mret tt.

(** ** [crawl_page] *)

Definition requests_get (net : fetch_result) (url : string) : M Response :=
  modify (observe (HttpGet url));;
  lift net.

(** [not base_domain or parsed.netloc == base_domain]: [None] and the empty
    string are both false in a condition. *)
Definition domain_ok (base_domain : option string) (parsed : ParseResult) : bool :=
  match base_domain with
  | None => true
  | Some d => bool_decide (d = "") || bool_decide (netloc parsed = d)
  end.

Definition scheme_ok (parsed : ParseResult) : bool :=
  bool_decide (scheme parsed = "http") || bool_decide (scheme parsed = "https").

(** The loop over the anchors; an exception of [urljoin] or [urlparse]
    abandons the list built so far. *)
Fixpoint extract_links (url : string) (base_domain : option string)
    (hrefs : list string) : string + list string :=
  match hrefs with
  | [] => inr []
  | href :: rest =>
    match urljoin url href with
    | inl e => inl e
    | inr full_url =>
      match urlparse full_url with
      | inl e => inl e
      | inr parsed =>
        match extract_links url base_domain rest with
        | inl e => inl e
        | inr links =>
          inr (if domain_ok base_domain parsed && scheme_ok parsed
               then full_url :: links else links)
        end
      end
    end
  end.

Definition crawl_page (net : fetch_result) (url : string) : M (list string * Z) :=
  try_except
    (response ← requests_get net url;
     let status := status_code response in
     if bool_decide (status ≠ 200%Z) then mret ([], status)
     else
       restrict ← gets (λ w, restrict_domain (entries w));
       base_domain ← (if restrict : bool
                      then parsed ← value (urlparse url); mret (Some (netloc parsed))
                      else mret None);
       links ← value (extract_links url base_domain (find_all_a_href (text response)));
       mret (links, status))
    (λ e, log ("Error crawling " +:+ url +:+ ": " +:+ str e);; mret ([], 0%Z)).

(** ** [save_url] and [load_urls] *)

Definition save_url (now : string) (io : option exn) (url : string) (status : Z) : M unit :=
  try_except
    (let timestamp := now in
     filename ← storage_file;
     file_exists ← path_exists filename;
     io_guard io;;                                          (* open(filename, 'a') *)
     (if file_exists : bool then mret tt
      else writerow filename ["URL"; "Timestamp"; "Status"]);;
     writerow filename [url; timestamp; pretty status];;
     modify (observe (Recorded url timestamp status));;
     modify (λ w, set_url_table (url_table w ++ [[url; timestamp; pretty status]]) w);;
     log ("Crawled: " +:+ url +:+ " (Status: " +:+ pretty status +:+ ")"))
    (λ e, log ("Error saving " +:+ url +:+ ": " +:+ str e)).

(** The body of [for row in reader]. *)
Fixpoint load_rows (rows : list (list string)) : M unit :=
  match rows with
  | [] => mret tt
  | row :: rest =>
    match row with
    | [] => mret tt
    | url :: _ =>
      modify (λ w, set_visited_urls ({[url]} ∪ visited_urls w) w);;
      modify (λ w, set_url_table (url_table w ++ [row]) w)
    end;;
    load_rows rest
  end.

(** The end of an iteration over the reader: an exception of the decoder
    or of the reader, or the end of the file. *)
Definition exhausted (failure : option exn) : M unit :=
  match failure with
  | Some e => raise e
  | None => mret tt
  end.

Definition load_urls (io : option exn) : M unit :=
  try_except
    (filename ← storage_file;
     file_exists ← path_exists filename;
     if file_exists : bool then
       io_guard io;;                                        (* open(filename, 'r') *)
       text ← gets (file_text filename);
       let '(rows, failure) := csv_reader text in
       match rows with
       | [] => raise (default StopIteration failure)        (* next(reader) *)
       | _ :: rest => load_rows rest;; exhausted failure    (* for row in reader *)
       end;;
       n ← gets (λ w, size (visited_urls w));
       log ("Loaded " +:+ pretty n +:+ " URLs from storage")
     else mret tt)
    (λ e, log ("Error loading URLs: " +:+ str e)).

(** ** The controller: [start_crawler], [stop_crawler], [clear_storage] *)

(** [try: body  except ValueError: handler] *)
Definition except_ValueError {A} (body : M A) (handler : M A) : M A := λ w,
  match body w with
  | (inl (ValueError _), w') => handler w'
  | r => r
  end.

Definition parse_max_threads : M Z :=
  s ← gets (λ w, max_threads_entry (entries w));
  match int_of_str s with
  | None => raise (ValueError "invalid literal for int() with base 10")
  | Some max_threads =>
    if bool_decide (1 ≤ max_threads ≤ 16)%Z then mret max_threads
    else raise (ValueError "")
  end.

Definition parse_delay : M pyfloat :=
  s ← gets (λ w, politeness_delay_entry (entries w));
  delay ← value (float_of_str s);
  if float_ltz delay then raise (ValueError "") else mret delay.

Definition spawn_workers (n : nat) : M unit :=
  modify (λ w, set_threads (threads w ++ replicate n AtLoop) w).

(** Each [return] of the source is a branch that ends the computation. *)
Definition start_crawler (io : option exn) : M unit :=
  try_except
    (running ← gets crawler_running;
     if running : bool then
       messagebox "showinfo" "Info" "Crawler is already running"
     else
       start_url ← gets (λ w, str_strip (start_url_entry (entries w)));
       if negb (startswith_http start_url) then
         messagebox "showerror" "Error" "Invalid URL - must start with http:// or https://"
       else
         checked ← except_ValueError
                     (max_threads ← parse_max_threads; mret (Some max_threads))
                     (messagebox "showerror" "Error" "Max threads must be 1-16";; mret None);
         match checked with
         | None => mret tt
         | Some max_threads =>
           checked ← except_ValueError
                       (delay ← parse_delay; mret (Some delay))
                       (messagebox "showerror" "Error" "Delay must be ≥0";; mret None);
           match checked with
           | None => mret tt
           | Some _ =>
             modify (set_crawler_running true);;
             modify (set_current_status "Running");;
             modify (set_url_queue []);;
             put start_url;;
             load_urls io;;
             spawn_workers (Z.to_nat max_threads);;
             update_stats;;
             log "Crawler started successfully"
           end
         end)
    (λ e, log ("Startup error: " +:+ str e);;
          messagebox "showerror" "Error" ("Failed to start crawler: " +:+ str e)).

Definition stop_crawler : M unit :=
  running ← gets crawler_running;
  if running : bool then
    modify (set_crawler_running false);;
    modify (set_current_status "Stopped");;
    log "Crawler stopping..."
  else mret tt.

Definition os_remove (io : option exn) (filename : string) : M unit :=
  io_guard io;;
  modify (λ w, set_files (delete filename (files w)) w).

Definition clear_storage (answer : bool) (io : option exn) : M unit :=
  messagebox "askyesno" "Confirm" "Delete all crawled data?";;
  if answer then
    try_except
      (filename ← storage_file;
       file_exists ← path_exists filename;
       (if file_exists : bool then os_remove io filename else mret tt);;
       modify (set_visited_urls ∅);;
       modify (set_url_table []);;
       log "Storage cleared successfully";;
       setup_stats)
      (λ e, log ("Clear error: " +:+ str e))
  else mret tt.

(** ** [worker] *)

(** What the environment supplies to the statement a thread executes. *)
Record Env := { net : fetch_result; now : string; io : option exn }.

(** [for link in links: if link not in self.visited_urls: self.url_queue.put(link)] *)
Fixpoint enqueue_links (links : list string) : M unit :=
  match links with
  | [] => mret tt
  | link :: rest =>
    visited ← gets visited_urls;
    (if decide (link ∈ visited) then mret tt else put link);;
    enqueue_links rest
  end.

(** One statement of the [try] block. *)
Definition worker_try (env : Env) (p : pc) : M pc :=
  match p with
  | AtGet => url ← get; mret (AtCheck url)
  | AtCheck url =>
    visited ← gets visited_urls;
    if decide (url ∈ visited) then task_done;; mret AtLoop           (* continue *)
    else modify (λ w, set_visited_urls ({[url]} ∪ visited_urls w) w);; mret (AtCrawl url)
  | AtCrawl url =>
    '(links, status) ← crawl_page (net env) url; mret (AtSave url links status)
  | AtSave url links status =>
    save_url (now env) (io env) url status;; mret (AtEnqueue links)
  | AtEnqueue links => enqueue_links links;; mret AtSleep
  | AtSleep =>
    s ← gets (λ w, politeness_delay_entry (entries w));
    d ← value (float_of_str s);
    match time_sleep d with
    | Some msg => raise (ValueError msg)
    | None => modify (observe (Slept d));; mret AtDone
    end
  | AtDone => task_done;; mret AtLoop
  | AtLoop | Exited => mret p
  end.

(** [except queue.Empty: break] and [except Exception as e: ...] *)
Definition worker_except (e : exn) : M pc :=
  match e with
  | QueueEmpty => mret Exited
  | _ => log ("Worker error: " +:+ str e);; task_done;; mret AtLoop
  end.

Definition worker (env : Env) (p : pc) : M pc :=
  match p with
  | AtLoop => running ← gets crawler_running; mret (if running : bool then AtGet else Exited)
  | Exited => mret Exited
  | _ => try_except (worker_try env p) worker_except
  end.

(** Thread [tid] executes its next statement; an exception that leaves
    [worker] ends the thread. *)
Definition schedule (tid : nat) (env : Env) (w : World) : World :=
  match threads w !! tid with
  | None => w
  | Some p =>
    match worker env p w with
    | (inr p', w') => set_threads (<[tid := p']> (threads w')) w'
    | (inl _, w') => set_threads (<[tid := Exited]> (threads w')) w'
    end
  end.

(** ** Executions *)

Inductive event :=
| ClickStart (io : option exn)
| ClickStop
| ClickClear (answer : bool) (io : option exn)
| Timer                                           (* a root.after callback fires *)
| Edit (c : Entries)                              (* the user changes the settings *)
| Run (tid : nat) (env : Env).

Definition step (e : event) (w : World) : World :=
  match e with
  | ClickStart io => exec (start_crawler io) w
  | ClickStop => exec stop_crawler w
  | ClickClear answer io => exec (clear_storage answer io) w
  | Timer =>
    match timers w with
    | O => w
    | S n => exec update_stats (set_timers n w)
    end
  | Edit c => set_entries c w
  | Run tid env => schedule tid env w
  end.

Fixpoint run (tr : list event) (w : World) : World :=
  match tr with
  | [] => w
  | e :: tr' => run tr' (step e w)
  end.

(** [WebCrawler.__init__], on a machine with [cpu_count] processors and the
    files [fs]. *)
Definition init (cpu_count : Z) (fs : gmap string string) : World :=
  {| url_queue := []; unfinished_tasks := 0; visited_urls := ∅;
     crawler_running := false;
     entries := {| start_url_entry := "https://example.com";
                   max_threads_entry := pretty (Z.min cpu_count 8);
                   politeness_delay_entry := "1.0";
                   storage_file_entry := "crawled_urls.csv";
                   restrict_domain := true |};
     queue_count := "0"; visited_count := "0"; current_status := "Idle";
     url_table := []; log_area := []; files := fs; threads := []; timers := 0;
     history := [] |}.

(** ** Observations and invariants *)

(** The URLs requested, and the records appended, in order. *)
Definition fetched (w : World) : list string :=
  omap (λ o, match o with HttpGet url => Some url | _ => None end) (history w).

Definition recorded (w : World) : list (string * Z) :=
  omap (λ o, match o with Recorded url _ status => Some (url, status) | _ => None end)
       (history w).

(** What the controller and the workers share, apart from widgets and files. *)
Definition engine (w : World) :=
  (url_queue w, unfinished_tasks w, visited_urls w, crawler_running w, entries w,
   threads w, timers w).

(** A thread that took an item from the queue and has not yet called
    [task_done] for it. *)
Definition holding (p : pc) : nat :=
  match p with
  | AtLoop | AtGet | Exited => 0
  | _ => 1
  end.

(** [unfinished_tasks] covers the queued items and the items being processed,
    so that [task_done] never finds the counter at zero. *)
Definition tasks_ok (w : World) : Prop :=
  length (url_queue w) + sum_list_with holding (threads w) ≤ unfinished_tasks w.

(** The row and the log line of a record. *)
Definition csv_row (url now : string) (status : Z) : list string :=
  [url; now; pretty status].

(** The text of the storage file once a record is appended to it: a file
    that was missing starts with the header. *)
Definition appended (before : option string) (row : list string) : string :=
  match before with
  | Some text => text
  | None => csv_writerow ["URL"; "Timestamp"; "Status"]
  end +:+ csv_writerow row.

Definition crawled_line (url : string) (status : Z) : string :=
  "Crawled: " +:+ url +:+ " (Status: " +:+ pretty status +:+ ")".

(** The statement [time.sleep(float(self.politeness_delay_entry.get()))]:
    the delay slept, or the message of the exception raised. *)
Definition delay_of (w : World) : string + pyfloat :=
  match float_of_str (politeness_delay_entry (entries w)) with
  | inl msg => inl msg
  | inr d =>
    match time_sleep d with
    | Some msg => inl msg
    | None => inr d
    end
  end.

Definition worker_error (msg : string) (w : World) : World :=
  set_log_area (log_area w ++ ["Worker error: " +:+ msg]) w.

Definition too_many : string := "task_done() called too many times".

(** The steps of a worker as a relation: [transition env w p p' w'] when a
    thread at [p] in world [w] moves to [p'] and leaves [w'].  A thread
    whose handler itself raises is gone ([Exited]). *)
Inductive transition (env : Env) (w : World) : pc → pc → World → Prop :=
| t_loop :
    transition env w AtLoop (if crawler_running w then AtGet else Exited) w
| t_exited :
    transition env w Exited Exited w
| t_timeout :
    url_queue w = [] →
    transition env w AtGet Exited w
| t_pop url rest :
    url_queue w = url :: rest →
    transition env w AtGet (AtCheck url) (set_url_queue rest w)
| t_skip url n :
    url ∈ visited_urls w → unfinished_tasks w = S n →
    transition env w (AtCheck url) AtLoop (set_unfinished_tasks n w)
| t_admit url :
    url ∉ visited_urls w →
    transition env w (AtCheck url) (AtCrawl url)
      (set_visited_urls ({[url]} ∪ visited_urls w) w)
| t_crawl url links status w' :
    crawl_page (net env) url w = (inr (links, status), w') →
    transition env w (AtCrawl url) (AtSave url links status) w'
| t_save url links status :
    transition env w (AtSave url links status) (AtEnqueue links)
      (exec (save_url (now env) (io env) url status) w)
| t_enqueue links :
    transition env w (AtEnqueue links) AtSleep
      (set_unfinished_tasks
         (unfinished_tasks w + length (filter (λ link, link ∉ visited_urls w) links))
         (set_url_queue (url_queue w ++ filter (λ link, link ∉ visited_urls w) links) w))
| t_sleep d :
    delay_of w = inr d →
    transition env w AtSleep AtDone (observe (Slept d) w)
| t_sleep_error msg n :
    delay_of w = inl msg → unfinished_tasks w = S n →
    transition env w AtSleep AtLoop (set_unfinished_tasks n (worker_error msg w))
| t_done n :
    unfinished_tasks w = S n →
    transition env w AtDone AtLoop (set_unfinished_tasks n w)
| t_crash p msg :
    holding p = 1 → unfinished_tasks w = 0 →
    transition env w p Exited (worker_error msg w).

Definition next_pc (r : exn + pc) : pc :=
  match r with
  | inr p => p
  | inl _ => Exited
  end.

(** ** Validation in [start_crawler] *)

Definition seed_of (w : World) : string := str_strip (start_url_entry (entries w)).

(** Every check of [start_crawler] passes, with [n] the thread count. *)
Record Accepted (w : World) (n : Z) : Prop := {
  acc_idle : crawler_running w = false;
  acc_scheme : startswith_http (seed_of w) = true;
  acc_threads : int_of_str (max_threads_entry (entries w)) = Some n;
  acc_range : (1 ≤ n ≤ 16)%Z;
  acc_delay : ∃ d, float_of_str (politeness_delay_entry (entries w)) = inr d
                   ∧ float_ltz d = false
}.

(** Some check fails. *)
Inductive Rejected (w : World) : Prop :=
| rej_running :
    crawler_running w = true → Rejected w
| rej_scheme :
    startswith_http (seed_of w) = false → Rejected w
| rej_threads_text :
    int_of_str (max_threads_entry (entries w)) = None → Rejected w
| rej_threads_range n :
    int_of_str (max_threads_entry (entries w)) = Some n → (n < 1 ∨ 16 < n)%Z →
    Rejected w
| rej_delay_text msg :
    float_of_str (politeness_delay_entry (entries w)) = inl msg → Rejected w
| rej_delay_negative d :
    float_of_str (politeness_delay_entry (entries w)) = inr d → float_ltz d = true →
    Rejected w.

(** [w'] keeps the engine, the files and the history of [w], and at least
    its visited URLs. *)
Definition grows (w w' : World) : Prop :=
  url_queue w' = url_queue w ∧ unfinished_tasks w' = unfinished_tasks w ∧
  crawler_running w' = crawler_running w ∧ entries w' = entries w ∧
  threads w' = threads w ∧ timers w' = timers w ∧ history w' = history w ∧
  files w' = files w ∧ current_status w' = current_status w ∧
  visited_urls w ⊆ visited_urls w'.

(** The catch-all handler of [worker] dealt with an exception of message
    [msg] between [w] and [w']: the line is logged, nothing else went out,
    and thread [tid] is at the head of its loop, from where it goes on to the
    queue as long as the crawler is running. *)
Definition recovered (tid : nat) (msg : string) (w w' : World) : Prop :=
  log_area w' = log_area w ++ ["Worker error: " +:+ msg] ∧
  history w' = history w ∧
  threads w' !! tid = Some AtLoop ∧
  ∀ env, crawler_running w = true → threads (schedule tid env w') !! tid = Some AtGet.

(** ** Deduplication *)

(** The URL a thread has been admitted to fetch, and the URL it has fetched
    and is about to record. *)
Definition to_fetch (p : pc) : option string :=
  match p with
  | AtCrawl url => Some url
  | _ => None
  end.

Definition to_record (p : pc) : option string :=
  match p with
  | AtSave url _ _ => Some url
  | _ => None
  end.

(** The calls made to the outside since the world [w0], and among them the
    URLs requested and the records appended. *)
Definition since (w0 w : World) : list obs :=
  drop (length (history w0)) (history w).

Definition fetched_since (w0 w : World) : list string :=
  omap (λ o, match o with HttpGet url => Some url | _ => None end) (since w0 w).

Definition recorded_since (w0 w : World) : list (string * Z) :=
  omap (λ o, match o with Recorded url _ status => Some (url, status) | _ => None end)
       (since w0 w).

(** The URLs that threads hold for a fetch or for a record. *)
Definition held (w : World) : list string :=
  omap to_fetch (threads w) ++ omap to_record (threads w).

(** Every URL a thread holds is in the visited set, and no two threads hold
    the same URL.  This is what a confirmed [clear_storage] breaks for the
    threads at work at that moment, whether the session is running or
    stopped. *)
Definition settled (w : World) : Prop :=
  NoDup (held w) ∧ ∀ url, url ∈ held w → url ∈ visited_urls w.

(** URLs admitted for a fetch since [w0]: fetched, or about to be. *)
Definition claimed_fetches (w0 w : World) : list string :=
  omap to_fetch (threads w) ++ fetched_since w0 w.

(** URLs admitted for a record since [w0]: recorded, or about to be. *)
Definition claimed_records (w0 w : World) : list string :=
  omap to_fetch (threads w) ++ omap to_record (threads w) ++ (recorded_since w0 w).*1.

(** No URL is claimed twice, and every claimed URL is in the visited set. *)
Definition dedup_ok (w0 w : World) : Prop :=
  length (history w0) ≤ length (history w) ∧
  NoDup (claimed_fetches w0 w) ∧ NoDup (claimed_records w0 w) ∧
  ∀ url, url ∈ claimed_fetches w0 w ∨ url ∈ claimed_records w0 w → url ∈ visited_urls w.

(** The user confirms [clear_storage]. *)
Definition clears (e : event) : bool :=
  match e with
  | ClickClear true _ => true
  | _ => false
  end.

(** ** Domain restriction *)

(** [urlparse(url).netloc], when [urlparse] accepts the URL. *)
Definition host (url : string) : option string :=
  match urlparse url with
  | inr parsed => Some (netloc parsed)
  | inl _ => None
  end.

(** The URLs a thread may still fetch or enqueue are on host [d]. *)
Definition pc_on_host (d : string) (p : pc) : Prop :=
  match p with
  | AtCheck url | AtCrawl url => host url = Some d
  | AtSave _ links _ | AtEnqueue links => Forall (λ link, host link = Some d) links
  | _ => True
  end.

(** The crawl is confined to host [d]. *)
Definition confined (d : string) (w : World) : Prop :=
  restrict_domain (entries w) = true ∧
  Forall (λ url, host url = Some d) (url_queue w) ∧
  Forall (pc_on_host d) (threads w).

(** Events of a session with the restriction kept on: no new start, and no
    change of settings that clears the check box. *)
Definition keeps_restriction (e : event) : bool :=
  match e with
  | ClickStart _ => false
  | Edit c => restrict_domain c
  | _ => true
  end.

(** ** Stopping *)





Definition starts (e : event) : bool :=
  match e with
  | ClickStart _ => true
  | _ => false
  end.

(** ** Storage, link extraction and lifecycle: further notions *)

(** The URLs [load_urls] takes from the rows that follow the header: the
    first column of every row that is not empty. *)
Fixpoint loaded_urls (rows : list (list string)) : gset string :=
  match rows with
  | [] => ∅
  | [] :: rest => loaded_urls rest
  | (url :: _) :: rest => {[url]} ∪ loaded_urls rest
  end.

(** The rows [load_urls] shows in the table. *)
Fixpoint loaded_rows (rows : list (list string)) : list (list string) :=
  match rows with
  | [] => []
  | [] :: rest => loaded_rows rest
  | row :: rest => row :: loaded_rows rest
  end.

(** What a call of [load_urls] takes from the storage file: nothing when
    the file is missing or cannot be opened; otherwise the URLs of the rows
    that the reader yields after the first one, up to the point where the
    reader fails, if it does. *)
Definition stored_urls (io : option exn) (w : World) : gset string :=
  match files w !! storage_file_entry (entries w), io with
  | Some text, None =>
    match (csv_reader text).1 with
    | _ :: rows => loaded_urls rows
    | [] => ∅
    end
  | _, _ => ∅
  end.

(** The lines of a list of records, as [save_url] writes them. *)
Fixpoint lines (records : list (string * string * Z)) : string :=
  match records with
  | [] => ""
  | r :: rest => csv_writerow [r.1.1; r.1.2; pretty r.2] +:+ lines rest
  end.

(** [save_url] called for each record in turn, the file system willing. *)
Definition saves (records : list (string * string * Z)) (w : World) : World :=
  foldl (λ w r, exec (save_url r.1.2 None r.1.1 r.2) w) w records.

(** One turn of the loop of [crawl_page] over the anchors: the exception
    raised, or the link appended, if any. *)
Definition link_of (url : string) (base_domain : option string) (href : string)
    : string + option string :=
  match urljoin url href with
  | inl msg => inl msg
  | inr full_url =>
    match urlparse full_url with
    | inl msg => inl msg
    | inr parsed =>
      inr (if domain_ok base_domain parsed && scheme_ok parsed
           then Some full_url else None)
    end
  end.

Definition stops (e : event) : bool :=
  match e with
  | ClickStop => true
  | _ => false
  end.

(** What the statistics panel shows. *)
Definition display (w : World) : string * string * string :=
  (queue_count w, visited_count w, current_status w).

(** How many times [url] stands in a list. *)
Definition occurrences (url : string) (l : list string) : nat :=
  length (filter (λ u, u = url) l).


(** ** Time

    Three statements of [worker] wait.  [self.url_queue.get(timeout=2)]
    returns an item as soon as the queue holds one, and raises [queue.Empty]
    when none has come for two seconds.  [requests.get(url, timeout=5)] is
    taken to answer or to raise within five seconds of the call.
    [time.sleep(d)] returns after [d] seconds.  Every other statement is
    taken to last no time at all.  A timed world adds to the world the clock,
    in seconds, and for each thread the time at which it reached the
    statement it is at. *)


















End Crawler.

(** ** Example sessions on the reference runtime *)

Module Session.
Import Reference.

Definition settings (seed max_threads delay : string) (restrict : bool) : Entries :=
  {| start_url_entry := seed; max_threads_entry := max_threads;
     politeness_delay_entry := delay; storage_file_entry := "crawled_urls.csv";
     restrict_domain := restrict |}.

(** The application after [__init__], with the settings edited. *)
Definition configured (c : Entries) : World := set_entries c (init 4 ∅).

(** Seed [https://a.com], two threads, no delay, restricted to the domain. *)
Definition fresh : World := configured (settings "https://a.com" "2" "0" true).

(** The same with the restriction off. *)
Definition unrestricted : World := configured (settings "https://a.com" "2" "0" false).

Definition page (status : Z) (html : string) : Response :=
  {| status_code := status; text := html |}.

Definition answers (net : fetch_result) : Env :=
  {| net := net; now := "2024-05-01 12:00:00"; io := None |}.

(** The page of [https://a.com]: a link to itself, a link to [/x] and a link
    to another host. *)
Definition home_page : Response :=
  page 200 ("<a href='https://a.com'>home</a> <a href='/x'>x</a> " +:+
            "<a href='https://b.com/page'>b</a>").

Definition home : Env := answers (inr home_page).

Definition refusal : exn := RequestException "connection refused".

Definition refused : Env := answers (inl refusal).

Definition broken_page : Response := page 500 "<a href='/y'>y</a>".

Definition broken : Env := answers (inr broken_page).

Definition partial_page : Response := page 206 "<a href='/y'>y</a>".

(** Start, then thread 0 passes its loop test, takes the seed from the queue
    and marks it visited: it is about to fetch. *)
Definition taken : World :=
  run [ClickStart None; Run 0 home; Run 0 home; Run 0 home] fresh.

Definition taken_unrestricted : World :=
  run [ClickStart None; Run 0 home; Run 0 home; Run 0 home] unrestricted.

(** Thread 0 has fetched and recorded the seed and enqueued its links: it is
    about to sleep, and [https://a.com/x] is pending. *)
Definition sleeping : World := run [Run 0 home; Run 0 home; Run 0 home] taken.

(** One session in which the user confirms [clear_storage] between the
    record of the seed and the moment its links are enqueued. *)
Definition cleared_midway : list event :=
  [ClickStart None;
   Run 0 home; Run 0 home; Run 0 home; Run 0 home; Run 0 home;
   ClickClear true None;
   Run 0 home; Run 0 home; Run 0 home; Run 0 home;
   Run 0 home; Run 0 home; Run 0 home; Run 0 home].

(** The same session without the click. *)
Definition undisturbed : list event :=
  [Edit (settings "https://a.com" "2" "0" true); ClickStart None;
   Run 0 home; Run 0 home; Run 0 home; Run 0 home; Run 0 home;
   ClickClear false None;
   Run 0 home; Run 0 home; Run 0 home; Run 0 home;
   Run 0 home; Run 0 home; Run 0 home; Run 0 home].

(** Thread 1 goes to the queue, then thread 0 finishes its iteration. *)
Definition winding_down : list event :=
  [Run 1 home; Run 1 home; Run 0 home; Run 0 home; Run 0 home; Timer;
   Run 1 home; Run 1 home; Run 1 home; Run 1 home; Run 1 home; Run 1 home;
   Run 1 home; Run 1 home].

(** A stretch of a session: both threads work, the user declines a clear,
    changes the delay and stops. *)
Definition crawling : list event :=
  [Run 0 home; Run 1 home; Run 0 home; Run 0 home; Run 1 home; Run 0 home;
   ClickClear false None; Run 0 home; Run 0 home; Timer;
   Edit (settings "https://a.com" "2" "1.5" true);
   Run 0 home; Run 0 home; Run 1 home; Run 0 home; ClickStop; Run 0 home].

End Session.

(** ** The reference runtime with the bracket test of [urlsplit]

    CPython's [urlsplit], under [urlparse] and [urljoin], refuses a network
    location with one square bracket and not the other ("Invalid IPv6
    URL").  This instance adds that test to the reference runtime. *)

Module Brackets.

Fixpoint has (a : ascii) (s : string) : bool :=
  match s with
  | EmptyString => false
  | String b s' => Ascii.eqb a b || has a s'
  end.

Definition lopsided (netloc : string) : bool :=
  xorb (has "["%char netloc) (has "]"%char netloc).

Definition parse (url : string) : string + ParseResult :=
  match Reference.parse url with
  | inl msg => inl msg
  | inr parsed =>
    if lopsided (netloc parsed) then inl "Invalid IPv6 URL" else inr parsed
  end.

Definition join (base href : string) : string + string :=
  match parse base, parse href with
  | inl msg, _ | _, inl msg => inl msg
  | inr _, inr _ => Reference.join base href
  end.

Definition runtime : PyRuntime := {|
  pyfloat := Q;
  float_of_str := Reference.float;
  float_ltz := Reference.negative;
  seconds := λ d, d;
  time_sleep := Reference.sleep;
  time_sleep_negative := Reference.sleep_negative;
  int_of_str := Reference.int;
  str_strip := Reference.strip;
  urlparse := parse;
  urljoin := join;
  find_all_a_href := Reference.hrefs;
  csv_writerow := Reference.writerow;
  csv_reader := Reference.reader;
  csv_reader_writerow := Reference.reader_writerow
|}.

(** A page with a sound link and a link whose host opens a bracket. *)
Definition torn_page : Response :=
  {| status_code := 200;
     text := "<a href='/x'>x</a> <a href='http://[::1/y'>y</a>" |}.

(** The application after [__init__], on this runtime. *)
Definition fresh : @World runtime := @init runtime 4 ∅.

End Brackets.

(** ** Further sessions on the reference runtime *)

Module Cases.
Import Reference Session.

(** The session of [sleeping], stopped: the storage file holds the record
    of the seed. *)
Definition stopped : World := exec stop_crawler sleeping.

(** The application started on an existing, empty storage file. *)
Definition on_empty_file : World :=
  set_entries (settings "https://a.com" "2" "0" true)
    (init 4 {[ "crawled_urls.csv" := "" ]}).

Definition three_records : list (string * string * Z) :=
  [("https://a.com", "2024-05-01 12:00:00", 200%Z);
   ("https://a.com/x", "2024-05-01 12:00:01", 404%Z);
   ("https://a.com", "2024-05-01 12:00:02", 0%Z)].

Definition disk_full : exn := OSError "No space left on device".

Definition unwritable : Env :=
  {| net := inr home_page; now := "2024-05-01 12:00:00"; io := Some disk_full |}.

(** Thread 0 has fetched the seed and is about to record it. *)
Definition fetched_seed : World := run [Run 0 home] taken.

(** Thread 0 has recorded the seed and is about to enqueue its links. *)
Definition recorded_seed : World := run [Run 0 home] fetched_seed.

(** Two pages: the seed links to [/x] and [/y], and [/x] links to [/y]. *)
Definition hub : Env := answers (inr (page 200 "<a href='/x'>x</a> <a href='/y'>y</a>")).

Definition leaf : Env := answers (inr (page 200 "<a href='/y'>y</a>")).

(** Thread 0 has crawled the seed and enqueued [/x] and [/y]; thread 1 has
    taken [/x], fetched and recorded it, and is about to enqueue [/y], which
    is still pending. *)
Definition requeueing : World :=
  run [ClickStart None;
       Run 0 hub; Run 0 hub; Run 0 hub; Run 0 hub; Run 0 hub; Run 0 hub;
       Run 1 leaf; Run 1 leaf; Run 1 leaf; Run 1 leaf; Run 1 leaf] fresh.

(** An earlier session: thread 0 crawls the seed and is about to sleep
    when the user stops and then confirms a clear. *)
Definition earlier : list event :=
  [Edit (settings "https://a.com" "2" "0" true); ClickStart None;
   Run 0 hub; Run 0 hub; Run 0 hub; Run 0 hub; Run 0 hub; Run 0 hub;
   ClickStop; ClickClear true None].

(** The next session, after its start: thread 2 crawls the seed, thread 3
    crawls [/x], and [/y] is pending twice; thread 2 takes the first [/y]
    and marks it visited, thread 3 takes the second. *)
Definition revisit : list event :=
  [Run 2 hub; Run 2 hub; Run 2 hub; Run 2 hub; Run 2 hub; Run 2 hub;
   Run 3 leaf; Run 3 leaf; Run 3 leaf; Run 3 leaf; Run 3 leaf; Run 3 leaf;
   Run 2 hub; Run 2 hub; Run 2 hub; Run 2 hub; Run 2 hub;
   Run 3 leaf; Run 3 leaf; Run 3 leaf; Run 3 leaf].

(** A session stopped and cleared while thread 0 is about to fetch the
    seed, and the session started next: thread 0 fetches and records the
    seed, and so does thread 2, which finds it in the queue. *)
Definition stale_fetch : list event :=
  [Run 0 home; Run 0 home;
   Run 2 home; Run 2 home; Run 2 home; Run 2 home; Run 2 home].

(** A page of [b.com] with a link to the same host. *)
Definition other_host : Env := answers (inr (page 200 "<a href='/q'>q</a>")).

(** In an unrestricted session thread 0 crawls the seed and thread 1 takes
    [https://a.com/x]; thread 0 then takes [https://b.com/page] and is about
    to fetch it. *)
Definition strayed : World :=
  run [Run 0 home; Run 0 home; Run 0 home;
       Run 1 home; Run 1 home;
       Run 0 home; Run 0 home; Run 0 home; Run 0 home; Run 0 home]
      taken_unrestricted.

(** The user stops while thread 0 is about to fetch the seed. *)
Definition halted : World := exec stop_crawler taken.










End Cases.

(** ** Proof automation *)

(** Unfold the monad and the methods. *)
Ltac run_m :=
  unfold exec, start_crawler, stop_crawler, clear_storage, os_remove, load_urls,
    save_url, crawl_page, requests_get, update_stats, setup_stats, spawn_workers,
    parse_delay, parse_max_threads, except_ValueError, writerow, io_guard, exhausted,
    path_exists, storage_file, messagebox, log, task_done, get, put,
    try_except, value, lift, raise, gets, modify, observe,
    mbind, M_bind, mret, M_ret in *;
  cbn [fst snd] in *.

(** Compare the claims of two worlds that differ in one thread. *)
Ltac claims :=
  unfold claimed_fetches, claimed_records, fetched_since, recorded_since, since; cbn;
  match goal with Hl : threads _ = _ ++ _ :: _ |- _ => rewrite ?Hl end;
  rewrite ?omap_app; cbn; rewrite ?omap_app, ?app_nil_r; cbn;
  try destruct (crawler_running _); cbn;
  first [solve_Permutation | solve_submseteq].

(** Evaluate a closed statement on the reference runtime. *)
Ltac concretely := first [vm_compute; first [reflexivity | discriminate | lia] | lia].

Ltac decided := apply (bool_decide_unpack _); vm_compute; exact I.

Section Properties.
Context `{RT : PyRuntime}.

(** * Properties *)

(** ** Lists of threads *)

Lemma insert_split {A} (l : list A) (i : nat) (x y : A) :
  l !! i = Some x → ∃ l1 l2, l = l1 ++ x :: l2 ∧ <[i := y]> l = l1 ++ y :: l2.
Proof.
  intros Hi. exists (take i l), (drop (S i) l). split.
  - symmetry. by apply take_drop_middle.
  - apply insert_take_drop. by eapply lookup_lt_Some.
Qed.

(** ** What each method leaves untouched *)

Lemma crawl_page_engine net url w : engine (crawl_page net url w).2 = engine w.
Proof.
  run_m. destruct net as [e|r]; cbn; [done|].
  case_bool_decide; cbn; [done|].
  destruct (restrict_domain (entries w)); cbn.
  - destruct (urlparse url); cbn; [done|].
    destruct (extract_links _ _ _); done.
  - destruct (extract_links _ _ _); done.
Qed.

Lemma crawl_page_history net url w :
  history (crawl_page net url w).2 = history w ++ [HttpGet url].
Proof.
  run_m. destruct net as [e|r]; cbn; [done|].
  case_bool_decide; cbn; [done|].
  destruct (restrict_domain (entries w)); cbn.
  - destruct (urlparse url); cbn; [done|].
    destruct (extract_links _ _ _); done.
  - destruct (extract_links _ _ _); done.
Qed.

Lemma crawl_page_storage net url w :
  files (crawl_page net url w).2 = files w ∧
  url_table (crawl_page net url w).2 = url_table w.
Proof.
  run_m. destruct net as [e|r]; cbn; [done|].
  case_bool_decide; cbn; [done|].
  destruct (restrict_domain (entries w)); cbn.
  - destruct (urlparse url); cbn; [done|].
    destruct (extract_links _ _ _); done.
  - destruct (extract_links _ _ _); done.
Qed.

(** [crawl_page] catches whatever is raised in it. *)
Lemma crawl_page_returns net url w : ∃ res, (crawl_page net url w).1 = inr res.
Proof.
  run_m. destruct net as [e|r]; cbn; [by eauto|].
  case_bool_decide; cbn; [by eauto|].
  destruct (restrict_domain (entries w)); cbn.
  - destruct (urlparse url); cbn; [by eauto|].
    destruct (extract_links _ _ _); by eauto.
  - destruct (extract_links _ _ _); by eauto.
Qed.

Lemma save_url_returns now io url status w : (save_url now io url status w).1 = inr tt.
Proof.
  run_m. destruct io; cbn; [done|].
  by destruct (bool_decide _).
Qed.

Lemma save_url_engine now io url status w :
  engine (save_url now io url status w).2 = engine w.
Proof.
  run_m. destruct io; cbn; [done|].
  by destruct (bool_decide _).
Qed.

Lemma save_url_history now io url status w :
  history (save_url now io url status w).2 =
  history w ++ match io with Some _ => [] | None => [Recorded url now status] end.
Proof.
  run_m. destruct io; cbn; [by rewrite app_nil_r|].
  by destruct (bool_decide _).
Qed.

(** The second critical section appends the links that are not visited. *)
Lemma enqueue_links_spec links w :
  let new := filter (λ link, link ∉ visited_urls w) links in
  enqueue_links links w =
  (inr tt, set_unfinished_tasks (unfinished_tasks w + length new)
             (set_url_queue (url_queue w ++ new) w)).
Proof.
  revert w. induction links as [|link rest IH]; intros w new; subst new.
  - cbn. rewrite app_nil_r, Nat.add_0_r. by destruct w.
  - cbn [enqueue_links]. run_m.
    destruct (decide (link ∈ visited_urls w)) as [Hin|Hin].
    + rewrite filter_cons_False by (intros H; by apply H). apply IH.
    + rewrite filter_cons_True by done. rewrite IH. cbn.
      rewrite <- app_assoc. cbn. by rewrite Nat.add_succ_r.
Qed.

(** ** The worker, statement by statement *)

Lemma worker_transition env p w :
  transition env w p (next_pc (worker env p w).1) (worker env p w).2.
Proof.
  destruct p as [| |url|url|url links status|links| | |]; cbn [worker worker_try].
  - run_m. cbn. constructor.
  - run_m. destruct (url_queue w) eqn:Hq; cbn.
    + by constructor.
    + by econstructor.
  - run_m. destruct (decide (url ∈ visited_urls w)); cbn.
    + destruct (unfinished_tasks w) eqn:Hn; cbn.
      * run_m. cbn. rewrite Hn. cbn. by apply (t_crash env w (AtCheck url) too_many).
      * by econstructor.
    + by constructor.
  - unfold try_except, mbind, M_bind, mret, M_ret.
    destruct (crawl_page_returns (net env) url w) as [[links status] Hres].
    destruct (crawl_page (net env) url w) as [r w'] eqn:Hc. cbn in Hres. subst r.
    cbn. by constructor.
  - unfold try_except, mbind, M_bind, mret, M_ret.
    pose proof (save_url_returns (now env) (io env) url status w) as Hres.
    unfold exec. destruct (save_url _ _ _ _ w) as [r w'] eqn:Hs. cbn in Hres. subst r.
    cbn. pose proof (t_save env w url links status) as Ht.
    unfold exec in Ht. by rewrite Hs in Ht.
  - unfold try_except, mbind, M_bind, mret, M_ret.
    rewrite enqueue_links_spec. cbn. constructor.
  - run_m. unfold worker_except.
    destruct (float_of_str (politeness_delay_entry (entries w))) as [msg|d] eqn:Hf; cbn.
    + run_m. cbn. destruct (unfinished_tasks w) eqn:Hn; cbn.
      * by apply (t_crash env w AtSleep msg).
      * apply (t_sleep_error env w msg n); [|done]. unfold delay_of. by rewrite Hf.
    + destruct (time_sleep d) as [msg|] eqn:Hs; cbn.
      * run_m. cbn. destruct (unfinished_tasks w) eqn:Hn; cbn.
        -- by apply (t_crash env w AtSleep msg).
        -- apply (t_sleep_error env w msg n); [|done]. unfold delay_of. by rewrite Hf, Hs.
      * apply (t_sleep env w d). unfold delay_of. by rewrite Hf, Hs.
  - run_m. destruct (unfinished_tasks w) eqn:Hn; cbn.
    + run_m. cbn. rewrite Hn. cbn. by apply (t_crash env w AtDone too_many).
    + by constructor.
  - constructor.
Qed.

Lemma schedule_transition tid env w p :
  threads w !! tid = Some p →
  ∃ p' w', transition env w p p' w' ∧
           schedule tid env w = set_threads (<[tid := p']> (threads w')) w'.
Proof.
  intros Hp. pose proof (worker_transition env p w) as Ht.
  unfold schedule. rewrite Hp.
  destruct (worker env p w) as [[e|p'] w']; cbn in Ht; eauto.
Qed.

Lemma schedule_absent tid env w : threads w !! tid = None → schedule tid env w = w.
Proof. intros Hp. unfold schedule. by rewrite Hp. Qed.

Lemma transition_threads env w p p' w' :
  transition env w p p' w' → threads w' = threads w.
Proof.
  destruct 1; try done.
  - pose proof (crawl_page_engine (net env) url w) as He.
    rewrite H in He. cbn in He. unfold engine in He. congruence.
  - pose proof (save_url_engine (now env) (io env) url status w) as He.
    unfold engine, exec in *. congruence.
Qed.

(** ** The controller *)

Lemma grows_refl w : grows w w.
Proof. unfold grows. by repeat split. Qed.

Lemma grows_trans w1 w2 w3 : grows w1 w2 → grows w2 w3 → grows w1 w3.
Proof. unfold grows. intros (?&?&?&?&?&?&?&?&?&?) (?&?&?&?&?&?&?&?&?&?).
  repeat split; try congruence. by etrans. Qed.

Lemma load_rows_grows rows w :
  (load_rows rows w).1 = inr tt ∧ grows w (load_rows rows w).2.
Proof.
  revert w. induction rows as [|row rest IH]; intros w; cbn [load_rows].
  - split; [done|apply grows_refl].
  - run_m. destruct row as [|url cols]; cbn.
    + apply IH.
    + match goal with |- context [load_rows rest ?w1] => destruct (IH w1) as [Hr Hg] end.
      split; [done|]. eapply grows_trans; [|exact Hg].
      unfold grows; cbn. repeat split; try done. apply union_subseteq_r.
Qed.

Lemma load_rows_spec rows w :
  load_rows rows w =
  (inr tt,
   set_url_table (url_table w ++ loaded_rows rows)
     (set_visited_urls (loaded_urls rows ∪ visited_urls w) w)).
Proof.
  revert w. induction rows as [|row rest IH]; intros w; cbn [load_rows].
  - cbn. rewrite app_nil_r, (left_id_L ∅ (∪)). by destruct w.
  - run_m. destruct row as [|url cols]; cbn.
    + apply IH.
    + rewrite IH. cbn. rewrite <- app_assoc. cbn.
      by rewrite (assoc_L (∪) (loaded_urls rest)), (comm_L (∪) (loaded_urls rest) {[url]}).
Qed.

Lemma load_urls_cases io w :
  load_urls io w =
  (inr tt,
   match files w !! storage_file_entry (entries w), io with
   | None, _ => w
   | Some _, Some e => set_log_area (log_area w ++ ["Error loading URLs: " +:+ str e]) w
   | Some text, None =>
     match csv_reader text with
     | ([], failure) =>
       set_log_area
         (log_area w ++ ["Error loading URLs: " +:+ str (default StopIteration failure)]) w
     | (_ :: rows, failure) =>
       set_log_area
         (log_area w ++
          [match failure with
           | Some e => "Error loading URLs: " +:+ str e
           | None => "Loaded " +:+ pretty (size (loaded_urls rows ∪ visited_urls w)) +:+
                     " URLs from storage"
           end])
         (set_url_table (url_table w ++ loaded_rows rows)
            (set_visited_urls (loaded_urls rows ∪ visited_urls w) w))
     end
   end).
Proof.
  run_m. unfold file_text.
  destruct (files w !! storage_file_entry (entries w)) as [text|] eqn:Hf.
  - rewrite bool_decide_eq_true_2 by eauto. cbn.
    destruct io as [e|]; cbn; [done|]. rewrite Hf. cbn.
    destruct (csv_reader text) as [[|header rows] [e|]]; cbn; try done;
      by rewrite load_rows_spec.
  - rewrite bool_decide_eq_false_2 by (by intros [? ?]). done.
Qed.

Lemma load_urls_grows io w :
  (load_urls io w).1 = inr tt ∧ grows w (load_urls io w).2.
Proof.
  rewrite load_urls_cases. split; [done|]. cbn [snd].
  destruct (files w !! storage_file_entry (entries w)) as [text|];
    [|apply grows_refl].
  destruct io as [e|]; [by unfold grows|].
  destruct (csv_reader text) as [[|header rows] failure]; [by unfold grows|].
  unfold grows; cbn. repeat split; try done. apply union_subseteq_r.
Qed.

Lemma start_decide w : Rejected w ∨ ∃ n, Accepted w n.
Proof.
  destruct (crawler_running w) eqn:Hrun; [left; by constructor|].
  destruct (startswith_http (seed_of w)) eqn:Hs; [|left; by constructor 2].
  destruct (int_of_str (max_threads_entry (entries w))) as [n|] eqn:Hn;
    [|left; by constructor 3].
  destruct (decide (1 ≤ n ≤ 16)%Z) as [Hr|Hr];
    [|left; apply (rej_threads_range w n); [done|lia]].
  destruct (float_of_str (politeness_delay_entry (entries w))) as [msg|d] eqn:Hd;
    [left; by apply (rej_delay_text w msg)|].
  destruct (float_ltz d) eqn:Hneg; [left; by apply (rej_delay_negative w d)|].
  right. exists n. split; eauto.
Qed.

Lemma start_rejected io w :
  Rejected w →
  ∃ kind title message, exec (start_crawler io) w = observe (Dialog kind title message) w.
Proof.
  intros Hrej. run_m.
  destruct (crawler_running w) eqn:Hrun; cbn; [by eauto|].
  destruct (startswith_http (str_strip _)) eqn:Hs; cbn; [|by eauto].
  destruct (int_of_str (max_threads_entry (entries w))) as [n|] eqn:Hn; cbn; [|by eauto].
  case_bool_decide as Hr; cbn; [|by eauto].
  destruct (float_of_str (politeness_delay_entry (entries w))) as [msg|d] eqn:Hd; cbn;
    [by eauto|].
  destruct (float_ltz d) eqn:Hneg; cbn; [by eauto|].
  exfalso. destruct Hrej; unfold seed_of in *; try congruence.
  assert (n0 = n) by congruence. lia.
Qed.

Lemma start_accepted io w n :
  Accepted w n →
  let w' := exec (start_crawler io) w in
  crawler_running w' = true ∧ current_status w' = "Running" ∧
  url_queue w' = [seed_of w] ∧ unfinished_tasks w' = S (unfinished_tasks w) ∧
  threads w' = threads w ++ replicate (Z.to_nat n) AtLoop ∧
  entries w' = entries w ∧ history w' = history w ∧ files w' = files w ∧
  visited_urls w ⊆ visited_urls w'.
Proof.
  intros [Hrun Hs Hn Hr (d & Hd & Hneg)]. unfold seed_of in *.
  unfold exec, start_crawler, update_stats, spawn_workers, parse_delay,
    parse_max_threads, except_ValueError, messagebox, log, put, try_except, value,
    raise, gets, modify, mbind, M_bind, mret, M_ret.
  rewrite Hrun. cbn. rewrite Hs. cbn. rewrite Hn. cbn.
  rewrite bool_decide_eq_true_2 by done. cbn.
  rewrite Hd. cbn. rewrite Hneg. cbn.
  match goal with |- context [load_urls io ?w1] =>
    destruct (load_urls_grows io w1) as [Hret Hg]; destruct (load_urls io w1) as [r w2]
  end.
  cbn in Hret, Hg. subst r. cbn.
  destruct Hg as (Hq & Hu & Hrn & He & Ht & _ & Hh & Hf & Hst & Hv). cbn in *.
  rewrite Hrn. cbn. by rewrite Hq, Hu, Ht, He, Hh, Hf, Hst.
Qed.

Lemma stop_crawler_spec w :
  exec stop_crawler w =
  if crawler_running w
  then set_log_area (log_area w ++ ["Crawler stopping..."])
         (set_current_status "Stopped" (set_crawler_running false w))
  else w.
Proof. run_m. by destruct (crawler_running w). Qed.

Lemma clear_declined io w :
  exec (clear_storage false io) w =
  observe (Dialog "askyesno" "Confirm" "Delete all crawled data?") w.
Proof. done. Qed.

(** [clear_storage] touches neither the queue nor the flag nor the threads. *)
Lemma clear_storage_frame answer io w :
  let w' := exec (clear_storage answer io) w in
  url_queue w' = url_queue w ∧ unfinished_tasks w' = unfinished_tasks w ∧
  crawler_running w' = crawler_running w ∧ entries w' = entries w ∧
  threads w' = threads w ∧
  history w' = history w ++ [Dialog "askyesno" "Confirm" "Delete all crawled data?"].
Proof.
  run_m. destruct answer; cbn; [|done].
  case_bool_decide; cbn; [|done].
  by destruct io.
Qed.

(** ** The task counter *)

Lemma holding_spawned n : sum_list_with holding (replicate n AtLoop) = 0.
Proof. induction n; cbn; lia. Qed.

Lemma holding_split l1 p l2 :
  sum_list_with holding (l1 ++ p :: l2) =
  sum_list_with holding l1 + holding p + sum_list_with holding l2.
Proof. rewrite sum_list_with_app. cbn. lia. Qed.

(** The thread table before and after thread [tid] takes a step. *)
Lemma schedule_cases tid env w :
  schedule tid env w = w ∨
  ∃ p p' w' l1 l2,
    threads w = l1 ++ p :: l2 ∧ threads w !! tid = Some p ∧ transition env w p p' w' ∧
    threads w' = threads w ∧ schedule tid env w = set_threads (l1 ++ p' :: l2) w'.
Proof.
  destruct (threads w !! tid) as [p|] eqn:Hp; [|left; by apply schedule_absent].
  right. destruct (schedule_transition tid env w p Hp) as (p' & w' & Ht & Hs).
  pose proof (transition_threads _ _ _ _ _ Ht) as Hth.
  destruct (insert_split (threads w) tid p p' Hp) as (l1 & l2 & Hl & Hins).
  exists p, p', w', l1, l2. rewrite Hs, Hth, Hins. done.
Qed.

Lemma tasks_ok_step e w : tasks_ok w → tasks_ok (step e w).
Proof.
  unfold tasks_ok. intros Hok. destruct e as [io| |answer io| |c|tid env]; cbn [step].
  - destruct (start_decide w) as [Hrej|[n Hacc]].
    + destruct (start_rejected io w Hrej) as (k & t & m & ->). done.
    + destruct (start_accepted io w n Hacc) as (_ & _ & Hq & Hu & Ht & _).
      rewrite Hq, Hu, Ht, sum_list_with_app, holding_spawned. cbn. lia.
  - rewrite stop_crawler_spec. by destruct (crawler_running w).
  - destruct (clear_storage_frame answer io w) as (Hq & Hu & _ & _ & Ht & _).
    by rewrite Hq, Hu, Ht.
  - destruct (timers w); [done|]. run_m. cbn. by destruct (crawler_running w).
  - done.
  - destruct (schedule_cases tid env w) as [->|(p & p' & w' & l1 & l2 & Hl & _ & Ht & _ & ->)];
      [done|].
    rewrite Hl, holding_split in Hok. cbn [threads set_threads]. rewrite holding_split.
    destruct Ht as [ | |Hq|url rest Hq|url n Hin Hn|url Hnot|url links status w' Hc
                   |url links status|links|d Hd|msg n Hd Hn|n Hn|p msg Hh Hn].
    + destruct (crawler_running w); cbn; lia.
    + done.
    + cbn in *. lia.
    + rewrite Hq in Hok. cbn in *. lia.
    + cbn in *. lia.
    + cbn in *. lia.
    + pose proof (crawl_page_engine (net env) url w) as He. rewrite Hc in He.
      unfold engine in He. cbn in *.
      assert (url_queue w' = url_queue w) as -> by congruence.
      assert (unfinished_tasks w' = unfinished_tasks w) as -> by congruence. lia.
    + pose proof (save_url_engine (now env) (io env) url status w) as He.
      unfold engine, exec in *. cbn in *.
      assert (url_queue (save_url (now env) (io env) url status w).2 = url_queue w) as ->
        by congruence.
      assert (unfinished_tasks (save_url (now env) (io env) url status w).2
              = unfinished_tasks w) as -> by congruence. lia.
    + cbn in *. rewrite length_app. lia.
    + cbn in *. lia.
    + cbn in *. lia.
    + cbn in *. lia.
    + cbn in *. lia.
Qed.

Lemma run_app tr1 tr2 w : run (tr1 ++ tr2) w = run tr2 (run tr1 w).
Proof. revert w. induction tr1 as [|e tr1 IH]; intros w; [done|]. apply IH. Qed.

Lemma tasks_ok_run tr w : tasks_ok w → tasks_ok (run tr w).
Proof. revert w. induction tr; cbn; auto using tasks_ok_step. Qed.

Lemma tasks_ok_init cpu_count fs : tasks_ok (init cpu_count fs).
Proof. unfold tasks_ok. cbn. lia. Qed.

(** ** One iteration of a worker *)

Lemma schedule_eq tid env w p p' w' :
  threads w !! tid = Some p → worker env p w = (inr p', w') → threads w' = threads w →
  schedule tid env w = set_threads (<[tid := p']> (threads w)) w' ∧
  threads (schedule tid env w) !! tid = Some p'.
Proof.
  intros Hp Hw Hth. unfold schedule. rewrite Hp, Hw, Hth. split; [done|].
  cbn. apply list_lookup_insert_eq. by eapply lookup_lt_Some.
Qed.

Lemma crawl_page_failed e url w :
  crawl_page (inl e) url w =
  (inr ([], 0%Z),
   set_log_area (log_area w ++ ["Error crawling " +:+ url +:+ ": " +:+ str e])
     (observe (HttpGet url) w)).
Proof. done. Qed.

Lemma crawl_page_not_200 r url w :
  status_code r ≠ 200%Z →
  crawl_page (inr r) url w = (inr ([], status_code r), observe (HttpGet url) w).
Proof. intros Hs. run_m. cbn. by rewrite bool_decide_eq_true_2. Qed.

Lemma crawl_page_200 r url w :
  status_code r = 200%Z →
  crawl_page (inr r) url w =
  match
    (if restrict_domain (entries w)
     then match urlparse url with
          | inl msg => inl msg
          | inr parsed =>
            extract_links url (Some (netloc parsed)) (find_all_a_href (text r))
          end
     else extract_links url None (find_all_a_href (text r)))
  with
  | inr links => (inr (links, 200%Z), observe (HttpGet url) w)
  | inl msg =>
    (inr ([], 0%Z),
     set_log_area (log_area w ++ ["Error crawling " +:+ url +:+ ": " +:+ msg])
       (observe (HttpGet url) w))
  end.
Proof.
  intros Hs. run_m. cbn. rewrite bool_decide_eq_false_2 by (intros H; by apply H).
  cbn. rewrite Hs. destruct (restrict_domain (entries w)); cbn.
  - destruct (urlparse url); cbn; [done|]. by destruct (extract_links _ _ _).
  - by destruct (extract_links _ _ _).
Qed.

Lemma save_url_ok now url status w :
  let filename := storage_file_entry (entries w) in
  save_url now None url status w =
  (inr tt,
   set_log_area (log_area w ++ [crawled_line url status])
     (set_url_table (url_table w ++ [csv_row url now status])
        (observe (Recorded url now status)
           (set_files
              (<[filename := appended (files w !! filename) (csv_row url now status)]>
                 (files w)) w)))).
Proof.
  run_m. cbn. unfold appended, file_text.
  destruct (files w !! storage_file_entry (entries w)) as [text|] eqn:Hf.
  - rewrite bool_decide_eq_true_2 by eauto. cbn. by rewrite Hf.
  - rewrite bool_decide_eq_false_2 by (by intros [? ?]). cbn.
    rewrite lookup_insert_eq, Hf. cbn. by rewrite insert_insert_eq.
Qed.

Lemma worker_crawl env url w links status w1 :
  crawl_page (net env) url w = (inr (links, status), w1) →
  worker env (AtCrawl url) w = (inr (AtSave url links status), w1).
Proof.
  intros Hc. cbn [worker worker_try].
  unfold try_except, mbind, M_bind, mret, M_ret. by rewrite Hc.
Qed.

Lemma worker_save env url links status w :
  worker env (AtSave url links status) w =
  (inr (AtEnqueue links), (save_url (now env) (io env) url status w).2).
Proof.
  cbn [worker worker_try]. unfold try_except, mbind, M_bind, mret, M_ret.
  pose proof (save_url_returns (now env) (io env) url status w) as Hr.
  destruct (save_url _ _ _ _ w) as [r w']. cbn in *. by subst r.
Qed.

Lemma worker_enqueue env links w :
  worker env (AtEnqueue links) w =
  (inr AtSleep,
   set_unfinished_tasks
     (unfinished_tasks w + length (filter (λ link, link ∉ visited_urls w) links))
     (set_url_queue (url_queue w ++ filter (λ link, link ∉ visited_urls w) links) w)).
Proof.
  cbn [worker worker_try]. unfold try_except, mbind, M_bind, mret, M_ret.
  by rewrite enqueue_links_spec.
Qed.

Lemma save_url_log now url status w :
  log_area (save_url now None url status w).2 = log_area w ++ [crawled_line url status].
Proof. by rewrite save_url_ok. Qed.

(** From the fetch to the politeness delay: the thread fetches, records and
    enqueues, in three steps of its own. *)
Lemma crawl_save_enqueue tid e1 e2 e3 w url links status w1 :
  threads w !! tid = Some (AtCrawl url) →
  crawl_page (net e1) url w = (inr (links, status), w1) →
  let w3 := run [Run tid e1; Run tid e2; Run tid e3] w in
  threads w3 !! tid = Some AtSleep ∧
  history w3 = history w ++ HttpGet url ::
    match io e2 with Some _ => [] | None => [Recorded url (now e2) status] end ∧
  url_queue w3 = url_queue w ++ filter (λ link, link ∉ visited_urls w) links ∧
  (io e2 = None → log_area w3 = log_area w1 ++ [crawled_line url status]) ∧
  visited_urls w3 = visited_urls w ∧ crawler_running w3 = crawler_running w ∧
  entries w3 = entries w ∧
  unfinished_tasks w3 =
    unfinished_tasks w + length (filter (λ link, link ∉ visited_urls w) links) ∧
  length (threads w3) = length (threads w).
Proof.
  intros Hp Hc. cbn [run step].
  pose proof (crawl_page_engine (net e1) url w) as He.
  pose proof (crawl_page_history (net e1) url w) as Hh.
  rewrite Hc in He, Hh. cbn in He, Hh. unfold engine in He.
  assert (Hth : threads w1 = threads w) by congruence.
  destruct (schedule_eq tid e1 w _ _ _ Hp (worker_crawl e1 url w links status w1 Hc) Hth)
    as [-> Hp1].
  match goal with |- context [schedule tid e2 ?x] => set (wa := x) in * end.
  pose proof (save_url_engine (now e2) (io e2) url status wa) as He2.
  pose proof (save_url_history (now e2) (io e2) url status wa) as Hh2.
  unfold engine in He2.
  destruct (schedule_eq tid e2 wa _ _ _ Hp1 (worker_save e2 url links status wa))
    as [-> Hp2]; [congruence|].
  match goal with |- context [schedule tid e3 ?x] => set (wb := x) in * end.
  destruct (schedule_eq tid e3 wb _ _ _ Hp2 (worker_enqueue e3 links wb)) as [-> Hp3];
    [done|].
  split; [exact Hp3|]. subst wb. cbn. rewrite !length_insert.
  assert (visited_urls (save_url (now e2) (io e2) url status wa).2 = visited_urls w) as ->
    by (transitivity (visited_urls wa); [congruence|subst wa; cbn; congruence]).
  assert (url_queue (save_url (now e2) (io e2) url status wa).2 = url_queue w) as ->
    by (transitivity (url_queue wa); [congruence|subst wa; cbn; congruence]).
  assert (unfinished_tasks (save_url (now e2) (io e2) url status wa).2
          = unfinished_tasks w) as ->
    by (transitivity (unfinished_tasks wa); [congruence|subst wa; cbn; congruence]).
  assert (crawler_running (save_url (now e2) (io e2) url status wa).2
          = crawler_running w) as ->
    by (transitivity (crawler_running wa); [congruence|subst wa; cbn; congruence]).
  assert (entries (save_url (now e2) (io e2) url status wa).2 = entries w) as ->
    by (transitivity (entries wa); [congruence|subst wa; cbn; congruence]).
  rewrite Hh2. subst wa. cbn. rewrite Hh, <- app_assoc. cbn.
  repeat split; try done.
  intros Hio. rewrite Hio. by rewrite save_url_log.
Qed.

(** The same three steps, seen from the storage file and the table. *)
Lemma crawl_save_enqueue_storage tid e1 e2 e3 w url links status w1 :
  threads w !! tid = Some (AtCrawl url) →
  crawl_page (net e1) url w = (inr (links, status), w1) → io e2 = None →
  let w3 := run [Run tid e1; Run tid e2; Run tid e3] w in
  let filename := storage_file_entry (entries w) in
  files w3 =
    <[filename := appended (files w !! filename) (csv_row url (now e2) status)]> (files w) ∧
  url_table w3 = url_table w ++ [csv_row url (now e2) status].
Proof.
  intros Hp Hc Hio. cbn [run step].
  pose proof (crawl_page_engine (net e1) url w) as He.
  destruct (crawl_page_storage (net e1) url w) as [Hf Ht].
  rewrite Hc in He, Hf, Ht. cbn in He, Hf, Ht. unfold engine in He.
  assert (Hth : threads w1 = threads w) by congruence.
  assert (Hen : entries w1 = entries w) by congruence.
  destruct (schedule_eq tid e1 w _ _ _ Hp (worker_crawl e1 url w links status w1 Hc) Hth)
    as [-> Hp1].
  match goal with |- context [schedule tid e2 ?x] => set (wa := x) in * end.
  pose proof (save_url_engine (now e2) (io e2) url status wa) as He2.
  unfold engine in He2.
  destruct (schedule_eq tid e2 wa _ _ _ Hp1 (worker_save e2 url links status wa))
    as [-> Hp2]; [congruence|].
  match goal with |- context [schedule tid e3 ?x] => set (wb := x) in * end.
  destruct (schedule_eq tid e3 wb _ _ _ Hp2 (worker_enqueue e3 links wb)) as [-> Hp3];
    [done|].
  subst wb. cbn. rewrite Hio, save_url_ok. subst wa. cbn. by rewrite Hen, Hf, Ht.
Qed.

(** A thread that holds an item finds the task counter positive. *)
Lemma holding_positive tid p w :
  tasks_ok w → threads w !! tid = Some p → holding p = 1 →
  ∃ n, unfinished_tasks w = S n.
Proof.
  unfold tasks_ok. intros Hok Hp Hh.
  rewrite <- (take_drop_middle _ _ _ Hp), holding_split, Hh in Hok.
  destruct (unfinished_tasks w) as [|n]; [lia|eauto].
Qed.

Lemma worker_sleep_ok env w d :
  delay_of w = inr d → worker env AtSleep w = (inr AtDone, observe (Slept d) w).
Proof.
  unfold delay_of. intros Hd. cbn [worker worker_try]. run_m.
  destruct (float_of_str _) as [msg|d']; [done|]. cbn.
  destruct (time_sleep d'); [done|]. cbn. congruence.
Qed.

Lemma worker_sleep_error env w msg n :
  delay_of w = inl msg → unfinished_tasks w = S n →
  worker env AtSleep w = (inr AtLoop, set_unfinished_tasks n (worker_error msg w)).
Proof.
  unfold delay_of. intros Hd Hn. cbn [worker worker_try]. run_m.
  destruct (float_of_str _) as [msg'|d']; cbn.
  - run_m. cbn. rewrite Hn. cbn. by simplify_eq.
  - destruct (time_sleep d'); [|done]. cbn. run_m. cbn. rewrite Hn. cbn. by simplify_eq.
Qed.

Lemma worker_done env w n :
  unfinished_tasks w = S n →
  worker env AtDone w = (inr AtLoop, set_unfinished_tasks n w).
Proof. intros Hn. cbn [worker worker_try]. run_m. rewrite Hn. done. Qed.

Lemma worker_loop env w :
  worker env AtLoop w = (inr (if crawler_running w then AtGet else Exited), w).
Proof. done. Qed.

(** After the delay statement the thread is back at the head of the loop,
    or already past it. *)
Lemma sleep_then_loop tid e4 e5 w :
  threads w !! tid = Some AtSleep → tasks_ok w → crawler_running w = true →
  let w' := run [Run tid e4; Run tid e5] w in
  threads w' !! tid = Some AtLoop ∨ threads w' !! tid = Some AtGet.
Proof.
  intros Hp Hok Hrun. cbn [run step].
  destruct (holding_positive tid AtSleep w Hok Hp eq_refl) as [n Hn].
  destruct (delay_of w) as [msg|d] eqn:Hd.
  - destruct (schedule_eq tid e4 w _ _ _ Hp (worker_sleep_error e4 w msg n Hd Hn) eq_refl)
      as [Hs Hp1].
    right.
    destruct (schedule_eq tid e5 _ _ _ _ Hp1 (worker_loop e5 _) eq_refl) as [_ Hp2].
    rewrite Hp2, Hs. cbn. by rewrite Hrun.
  - destruct (schedule_eq tid e4 w _ _ _ Hp (worker_sleep_ok e4 w d Hd) eq_refl)
      as [Hs Hp1].
    left.
    assert (Hn' : unfinished_tasks (schedule tid e4 w) = S n) by (by rewrite Hs).
    by destruct (schedule_eq tid e5 _ _ _ _ Hp1 (worker_done e5 _ n Hn') eq_refl).
Qed.

(** ** Claims about a single fetch *)

(** C9: link extraction runs only when the status code is exactly 200.  For
    a response with any other status, 203 and 206 included, [crawl_page]
    returns the empty link list with that status, and the thread that
    fetched the page enqueues nothing for it. *)
Theorem extraction_only_on_200 (r : Response) (url : string) (w : World) :
  status_code r ≠ 200%Z →
  crawl_page (inr r) url w = (inr ([], status_code r), observe (HttpGet url) w) ∧
  ∀ tid e1 e2 e3,
    threads w !! tid = Some (AtCrawl url) → net e1 = inr r →
    url_queue (run [Run tid e1; Run tid e2; Run tid e3] w) = url_queue w.
Proof.
  intros Hs. split; [by apply crawl_page_not_200|].
  intros tid e1 e2 e3 Hp Hnet.
  pose proof (crawl_page_not_200 r url w Hs) as Hc. rewrite <- Hnet in Hc.
  destruct (crawl_save_enqueue tid e1 e2 e3 w url _ _ _ Hp Hc) as (_ & _ & Hq & _).
  rewrite Hq. cbn. apply app_nil_r.
Qed.

(** C7: a response whose status is not a success, such as 500, is not an
    error.  The thread logs no failure and, the storage file being writable,
    produces the record with that status: the line of the URL, the time and
    the status is appended to the storage file (after the header when the
    file was missing), the same row is added to the table, and the record is
    logged.  No link is enqueued for the page. *)
Theorem non_success_status_recorded (tid : nat) (e1 e2 e3 : Env) (r : Response)
    (url : string) (w : World) :
  threads w !! tid = Some (AtCrawl url) →
  net e1 = inr r → status_code r ≠ 200%Z → io e2 = None →
  let w3 := run [Run tid e1; Run tid e2; Run tid e3] w in
  let filename := storage_file_entry (entries w) in
  let row := [url; now e2; pretty (status_code r)] in
  history w3 = history w ++ [HttpGet url; Recorded url (now e2) (status_code r)] ∧
  files w3 = <[filename := appended (files w !! filename) row]> (files w) ∧
  url_table w3 = url_table w ++ [row] ∧
  log_area w3 = log_area w ++ [crawled_line url (status_code r)] ∧
  url_queue w3 = url_queue w ∧
  threads w3 !! tid = Some AtSleep.
Proof.
  intros Hp Hnet Hs Hio.
  pose proof (crawl_page_not_200 r url w Hs) as Hc. rewrite <- Hnet in Hc.
  destruct (crawl_save_enqueue tid e1 e2 e3 w url _ _ _ Hp Hc)
    as (Hp3 & Hh & Hq & Hl & _).
  destruct (crawl_save_enqueue_storage tid e1 e2 e3 w url _ _ _ Hp Hc Hio) as [Hf Ht].
  rewrite Hio in Hh. cbn. cbn in Hp3, Hh, Hq, Hl, Hf, Ht.
  rewrite Hh, Hq, (Hl Hio), Hf, Ht, app_nil_r. done.
Qed.

(** C4: when [requests.get] raises, the failure is logged and, the storage
    file being writable, the record of the URL has status 0: the line of the
    URL, the time and [0] is appended to the storage file (after the header
    when the file was missing) and the same row is added to the table.  No
    link is enqueued, and the thread goes on: two steps after the record it
    is back at the head of its loop or waiting for the next entry of the
    queue. *)
Theorem transport_failure_recovered (tid : nat) (e1 e2 e3 e4 e5 : Env) (x : exn)
    (url : string) (w : World) :
  threads w !! tid = Some (AtCrawl url) →
  net e1 = inl x → io e2 = None → tasks_ok w → crawler_running w = true →
  let w3 := run [Run tid e1; Run tid e2; Run tid e3] w in
  let w5 := run [Run tid e4; Run tid e5] w3 in
  let filename := storage_file_entry (entries w) in
  let row := [url; now e2; "0"] in
  history w3 = history w ++ [HttpGet url; Recorded url (now e2) 0%Z] ∧
  files w3 = <[filename := appended (files w !! filename) row]> (files w) ∧
  url_table w3 = url_table w ++ [row] ∧
  log_area w3 = log_area w ++
    ["Error crawling " +:+ url +:+ ": " +:+ str x; crawled_line url 0%Z] ∧
  url_queue w3 = url_queue w ∧
  threads w3 !! tid = Some AtSleep ∧
  (threads w5 !! tid = Some AtLoop ∨ threads w5 !! tid = Some AtGet).
Proof.
  intros Hp Hnet Hio Hok Hrun w3 w5 filename row.
  pose proof (crawl_page_failed x url w) as Hc. rewrite <- Hnet in Hc.
  destruct (crawl_save_enqueue tid e1 e2 e3 w url _ _ _ Hp Hc)
    as (Hp3 & Hh & Hq & Hl & _ & Hr & _).
  destruct (crawl_save_enqueue_storage tid e1 e2 e3 w url _ _ _ Hp Hc Hio) as [Hf Ht].
  fold w3 in Hp3, Hh, Hq, Hl, Hr, Hf, Ht.
  rewrite Hio in Hh. rewrite Hh, Hq, (Hl Hio), Hf, Ht. cbn [filter].
  cbn [log_area set_log_area].
  rewrite app_nil_r, <- app_assoc.
  repeat split; try done.
  apply sleep_then_loop; [done| |by rewrite Hr].
  by apply tasks_ok_run.
Qed.

Lemma sleep_error_recovered tid env w msg :
  threads w !! tid = Some AtSleep → tasks_ok w → delay_of w = inl msg →
  recovered tid msg w (schedule tid env w).
Proof.
  intros Hp Hok Hd.
  destruct (holding_positive tid AtSleep w Hok Hp eq_refl) as [n Hn].
  destruct (schedule_eq tid env w _ _ _ Hp (worker_sleep_error env w msg n Hd Hn) eq_refl)
    as [Hs Hp1].
  repeat split; try (rewrite Hs; done); try done.
  intros env' Hrun.
  destruct (schedule_eq tid env' _ _ _ _ Hp1 (worker_loop env' _) eq_refl) as [_ Hp2].
  rewrite Hp2, Hs. cbn. by rewrite Hrun.
Qed.

(** C10: the politeness delay is read from the entry at every iteration.
    After the settings are changed to [c], the thread that reaches its delay
    statement sleeps for the value of [c]; when the text of [c] is not a
    number, or is a negative number, the exception is logged by the handler
    of [worker] and the thread goes on with its loop. *)
Theorem politeness_delay_reread (tid : nat) (env : Env) (c : Entries) (w : World) :
  threads w !! tid = Some AtSleep → tasks_ok w →
  let w' := run [Edit c; Run tid env] w in
  (∀ d, float_of_str (politeness_delay_entry c) = inr d → time_sleep d = None →
        history w' = history w ++ [Slept d] ∧ threads w' !! tid = Some AtDone) ∧
  (∀ msg, float_of_str (politeness_delay_entry c) = inl msg → recovered tid msg w w') ∧
  (∀ d, float_of_str (politeness_delay_entry c) = inr d → float_ltz d = true →
        ∃ msg, time_sleep d = Some msg ∧ recovered tid msg w w').
Proof.
  intros Hp Hok. cbn [run step].
  assert (Hp' : threads (set_entries c w) !! tid = Some AtSleep) by done.
  assert (Hok' : tasks_ok (set_entries c w)) by done.
  split; [|split].
  - intros d Hf Hs.
    assert (Hd : delay_of (set_entries c w) = inr d).
    { unfold delay_of. cbn. by rewrite Hf, Hs. }
    destruct (schedule_eq tid env _ _ _ _ Hp' (worker_sleep_ok env _ d Hd) eq_refl)
      as [Hs' Hp1].
    split; [by rewrite Hs'|done].
  - intros msg Hf.
    assert (Hd : delay_of (set_entries c w) = inl msg).
    { unfold delay_of. cbn. by rewrite Hf. }
    apply (sleep_error_recovered tid env _ msg Hp' Hok' Hd).
  - intros d Hf Hneg.
    destruct (time_sleep_negative d Hneg) as [msg Hs]. exists msg. split; [done|].
    assert (Hd : delay_of (set_entries c w) = inl msg).
    { unfold delay_of. cbn. by rewrite Hf, Hs. }
    apply (sleep_error_recovered tid env _ msg Hp' Hok' Hd).
Qed.

(** ** Claims about the controller *)

(** C6, as amended: a start that fails any check (a session is running, the
    seed does not start with http:// or https://, the thread count is not an
    integer of [1,16], the delay is not a number or is negative) shows a
    dialog and changes nothing else: no thread is spawned and the status is
    the one it was, [Idle] when it was [Idle].  A start that passes every
    check sets the flag, replaces the queue by the seed and spawns exactly
    the requested number of workers.  One of the two always applies. *)
Theorem start_validation (io : option exn) (w : World) :
  let w' := exec (start_crawler io) w in
  (Rejected w →
     (∃ kind title message, w' = observe (Dialog kind title message) w) ∧
     threads w' = threads w ∧ current_status w' = current_status w ∧
     crawler_running w' = crawler_running w ∧ url_queue w' = url_queue w) ∧
  (∀ n, Accepted w n →
     crawler_running w' = true ∧ current_status w' = "Running" ∧
     url_queue w' = [seed_of w] ∧
     threads w' = threads w ++ replicate (Z.to_nat n) AtLoop) ∧
  (Rejected w ∨ ∃ n, Accepted w n).
Proof.
  cbn zeta. split; [|split].
  - intros Hrej. destruct (start_rejected io w Hrej) as (k & t & m & Heq).
    rewrite Heq. eauto 10.
  - intros n Hacc. destruct (start_accepted io w n Hacc) as (? & ? & ? & ? & ? & _).
    done.
  - apply start_decide.
Qed.

(** C8, as amended: across a stop followed by a start, every visited URL is
    still visited.  The queue is not kept: when the start passes validation
    the queue holds the seed and nothing else, whatever was pending; only
    when the start is rejected is the queue left as it was. *)
Theorem restart_keeps_visited_reseeds_queue (io : option exn) (w : World) :
  let w' := run [ClickStop; ClickStart io] w in
  visited_urls w ⊆ visited_urls w' ∧
  (∀ n, Accepted (exec stop_crawler w) n → url_queue w' = [seed_of w]) ∧
  (Rejected (exec stop_crawler w) → url_queue w' = url_queue w).
Proof.
  cbn [run step].
  assert (Hstop : visited_urls (exec stop_crawler w) = visited_urls w ∧
                  url_queue (exec stop_crawler w) = url_queue w ∧
                  seed_of (exec stop_crawler w) = seed_of w).
  { rewrite stop_crawler_spec. by destruct (crawler_running w). }
  destruct Hstop as (Hv & Hq & Hseed).
  destruct (start_decide (exec stop_crawler w)) as [Hrej|[n Hacc]].
  - destruct (start_rejected io _ Hrej) as (k & t & m & Heq). rewrite Heq. cbn.
    rewrite Hv, Hq. split; [done|]. split; [|done].
    intros n' Hacc. exfalso. destruct Hacc as [Hrun Hs Hn Hr (d & Hd & Hneg)].
    destruct Hrej; try congruence. assert (n = n') by congruence. lia.
  - destruct (start_accepted io _ n Hacc) as (_ & _ & Hq' & _ & _ & _ & _ & _ & Hsub).
    rewrite Hv in Hsub. rewrite Hseed in Hq'. split; [done|]. split; [done|].
    intros Hrej. exfalso. destruct Hacc as [Hrun Hs Hn Hr (d & Hd & Hneg)].
    destruct Hrej; try congruence. assert (n = n0) by congruence. lia.
Qed.

Lemma load_urls_absent io w :
  files w !! storage_file_entry (entries w) = None → exec (load_urls io) w = w.
Proof.
  intros Hf. run_m. rewrite Hf. rewrite bool_decide_eq_false_2; [done|].
  by intros [? ?].
Qed.

(** C2, as amended: [clear_storage] asks for a confirmation and never looks
    at the running flag.  Declined, it changes nothing.  Confirmed, with the
    file removed without error, it empties the visited set, removes the
    storage file (loading the stored URLs then adds nothing), empties the
    table and sets the displayed status to [Idle], whether a session is
    running or not; the queue, the flag and the threads are untouched. *)
Theorem clear_storage_spec (w : World) :
  (∀ io, exec (clear_storage false io) w =
         observe (Dialog "askyesno" "Confirm" "Delete all crawled data?") w) ∧
  let w' := exec (clear_storage true None) w in
  visited_urls w' = ∅ ∧
  files w' !! storage_file_entry (entries w') = None ∧
  (∀ io, exec (load_urls io) w' = w') ∧
  url_table w' = [] ∧ current_status w' = "Idle" ∧
  crawler_running w' = crawler_running w ∧ url_queue w' = url_queue w ∧
  threads w' = threads w.
Proof.
  split; [done|]. cbn zeta.
  assert (Hf : files (exec (clear_storage true None) w)
               !! storage_file_entry (entries (exec (clear_storage true None) w)) = None).
  { run_m. cbn. case_bool_decide as Hex; cbn.
    - apply lookup_delete_eq.
    - destruct (files w !! _) eqn:E; [|done]. exfalso. apply Hex. eauto. }
  split; [|split; [exact Hf|split; [intros io; by apply load_urls_absent|]]].
  - clear Hf. run_m. cbn. by destruct (bool_decide _).
  - clear Hf. run_m. cbn. by destruct (bool_decide _).
Qed.

(** ** Deduplication *)

Lemma submseteq_keeps_NoDup {A} (l k : list A) : l ⊆+ k → NoDup k → NoDup l.
Proof.
  intros Hsub Hk. destruct (submseteq_Permutation _ _ Hsub) as [k' Hp].
  rewrite Hp in Hk. by apply NoDup_app in Hk as (? & _).
Qed.

(** A step that claims nothing new keeps the invariant. *)
Lemma dedup_keep w0 w w' :
  dedup_ok w0 w →
  length (history w) ≤ length (history w') →
  claimed_fetches w0 w' ⊆+ claimed_fetches w0 w →
  claimed_records w0 w' ⊆+ claimed_records w0 w →
  visited_urls w ⊆ visited_urls w' →
  dedup_ok w0 w'.
Proof.
  intros (Hk & Hf & Hr & Hv) Hlen Hsf Hsr Hsub. split; [lia|]. repeat split.
  - by eapply submseteq_keeps_NoDup.
  - by eapply submseteq_keeps_NoDup.
  - intros url [Hu|Hu]; apply Hsub, Hv.
    + left. by eapply elem_of_submseteq.
    + right. by eapply elem_of_submseteq.
Qed.

(** The first critical section claims a URL that was not visited. *)
Lemma dedup_admit w0 w w' url :
  dedup_ok w0 w → url ∉ visited_urls w →
  length (history w) ≤ length (history w') →
  claimed_fetches w0 w' ≡ₚ url :: claimed_fetches w0 w →
  claimed_records w0 w' ≡ₚ url :: claimed_records w0 w →
  visited_urls w' = {[url]} ∪ visited_urls w →
  dedup_ok w0 w'.
Proof.
  intros (Hk & Hf & Hr & Hv) Hnew Hlen Hpf Hpr Hvis. split; [lia|]. repeat split.
  - rewrite Hpf. apply NoDup_cons. split; [|done]. intros Hin. apply Hnew, Hv. by left.
  - rewrite Hpr. apply NoDup_cons. split; [|done]. intros Hin. apply Hnew, Hv. by right.
  - intros u Hu. rewrite Hvis. rewrite Hpf, Hpr in Hu. rewrite !elem_of_cons in Hu.
    apply elem_of_union. rewrite elem_of_singleton.
    destruct Hu as [[->|Hu]|[->|Hu]]; auto.
Qed.

Lemma to_fetch_spawned n : omap to_fetch (replicate n AtLoop) = [].
Proof. by induction n. Qed.

Lemma to_record_spawned n : omap to_record (replicate n AtLoop) = [].
Proof. by induction n. Qed.

Lemma fetched_app w l :
  omap (λ o, match o with HttpGet url => Some url | _ => None end) (history w ++ l) =
  fetched w ++ omap (λ o, match o with HttpGet url => Some url | _ => None end) l.
Proof. apply omap_app. Qed.

Lemma recorded_app w l :
  omap (λ o, match o with Recorded url _ status => Some (url, status) | _ => None end)
       (history w ++ l) =
  recorded w ++
  omap (λ o, match o with Recorded url _ status => Some (url, status) | _ => None end) l.
Proof. apply omap_app. Qed.

(** What is added to the history is added to the calls made since [w0]. *)
Lemma since_app w0 w w' l :
  length (history w0) ≤ length (history w) → history w' = history w ++ l →
  since w0 w' = since w0 w ++ l ∧ length (history w) ≤ length (history w').
Proof.
  intros Hk Hh. unfold since. rewrite Hh, length_app. split; [|lia].
  by apply drop_app_le.
Qed.

Lemma since_same w0 w w' :
  history w' = history w → since w0 w' = since w0 w.
Proof. unfold since. by intros ->. Qed.

Lemma dedup_ok_step w0 e w :
  clears e = false → dedup_ok w0 w → dedup_ok w0 (step e w).
Proof.
  intros Hc Hok. pose proof Hok as (Hk & _).
  destruct e as [io| |answer io| |c|tid env]; cbn [step].
  - destruct (start_decide w) as [Hrej|[n Hacc]].
    + destruct (start_rejected io w Hrej) as (k & t & m & Heq).
      destruct (since_app w0 w (exec (start_crawler io) w) [Dialog k t m] Hk)
        as [Hs Hlen]; [by rewrite Heq|].
      apply (dedup_keep w0 w); [done|done| | |by rewrite Heq];
        unfold claimed_fetches, claimed_records, fetched_since, recorded_since;
        rewrite Hs, Heq, !omap_app; cbn; by rewrite !app_nil_r.
    + destruct (start_accepted io w n Hacc) as (_ & _ & _ & _ & Ht & _ & Hh & _ & Hv).
      pose proof (since_same w0 _ _ Hh) as Hs.
      apply (dedup_keep w0 w); [done|by rewrite Hh| |  |done];
        unfold claimed_fetches, claimed_records, fetched_since, recorded_since;
        rewrite Ht, Hs, !omap_app, ?to_fetch_spawned, ?to_record_spawned, ?app_nil_r;
        done.
  - rewrite stop_crawler_spec. destruct (crawler_running w); [|done].
    by apply (dedup_keep w0 w).
  - destruct answer; [done|]. rewrite clear_declined.
    destruct (since_app w0 w
                (observe (Dialog "askyesno" "Confirm" "Delete all crawled data?") w)
                [Dialog "askyesno" "Confirm" "Delete all crawled data?"] Hk)
      as [Hs Hlen]; [done|].
    apply (dedup_keep w0 w); [done|done| | |done];
      unfold claimed_fetches, claimed_records, fetched_since, recorded_since;
      rewrite Hs, !omap_app; cbn; by rewrite !app_nil_r.
  - destruct (timers w); [done|]. run_m. cbn. destruct (crawler_running w); cbn.
    + by apply (dedup_keep w0 w).
    + by apply (dedup_keep w0 w).
  - by apply (dedup_keep w0 w).
  - destruct (schedule_cases tid env w)
      as [->|(p & p' & w' & l1 & l2 & Hl & _ & Ht & _ & ->)]; [done|].
    destruct Ht as [ | |Hq|url rest Hq|url n Hin Hn|url Hnot|url links status w' Hc'
                   |url links status|links|d Hd|msg n Hd Hn|n Hn|p msg Hh Hn].
    + apply (dedup_keep w0 w); [done|done|claims|claims|done].
    + by apply (dedup_keep w0 w); [done|done|claims|claims|].
    + by apply (dedup_keep w0 w); [done|done|claims|claims|].
    + by apply (dedup_keep w0 w); [done|done|claims|claims|].
    + by apply (dedup_keep w0 w); [done|done|claims|claims|].
    + by apply (dedup_admit w0 w _ url); [done|done|done|claims|claims|].
    + pose proof (crawl_page_engine (net env) url w) as He.
      pose proof (crawl_page_history (net env) url w) as Hh.
      rewrite Hc' in He, Hh. cbn in He, Hh. unfold engine in He.
      destruct (since_app w0 w w' [HttpGet url] Hk Hh) as [Hs Hlen].
      apply (dedup_keep w0 w); [done|done| | |].
      * unfold claimed_fetches, fetched_since, since in *. cbn. rewrite Hs, Hl, !omap_app.
        cbn. solve_submseteq.
      * unfold claimed_records, recorded_since, since in *. cbn.
        rewrite Hs, Hl, !omap_app. cbn. rewrite app_nil_r. solve_submseteq.
      * cbn. by assert (visited_urls w' = visited_urls w) as -> by congruence.
    + pose proof (save_url_engine (now env) (io env) url status w) as He.
      pose proof (save_url_history (now env) (io env) url status w) as Hh.
      unfold engine, exec in *.
      destruct (since_app w0 w (save_url (now env) (io env) url status w).2 _ Hk Hh)
        as [Hs Hlen].
      apply (dedup_keep w0 w); [done|done| | |].
      * unfold claimed_fetches, fetched_since, since in *. cbn. rewrite Hs, Hl, !omap_app.
        destruct (io env); cbn; rewrite app_nil_r; solve_submseteq.
      * unfold claimed_records, recorded_since, since in *. cbn.
        rewrite Hs, Hl, !omap_app.
        destruct (io env); cbn; rewrite ?app_nil_r, ?fmap_app; cbn; solve_submseteq.
      * cbn. by assert (visited_urls (save_url (now env) (io env) url status w).2
                        = visited_urls w) as -> by congruence.
    + by apply (dedup_keep w0 w); [done|done|claims|claims|].
    + assert (Hs : drop (length (history w0)) (history w ++ [Slept d]) =
                   drop (length (history w0)) (history w) ++ [Slept d])
        by (by apply drop_app_le).
      apply (dedup_keep w0 w); [done|cbn; rewrite length_app; lia| | |done];
        unfold claimed_fetches, claimed_records, fetched_since, recorded_since, since;
        cbn; rewrite Hs, Hl, !omap_app; cbn; rewrite ?app_nil_r; solve_submseteq.
    + by apply (dedup_keep w0 w); [done|done|claims|claims|].
    + by apply (dedup_keep w0 w); [done|done|claims|claims|].
    + apply (dedup_keep w0 w); [done|done| | |done].
      * unfold claimed_fetches, fetched_since, since. cbn. rewrite Hl, !omap_app.
        destruct p; cbn; solve_submseteq.
      * unfold claimed_records, recorded_since, since. cbn. rewrite Hl, !omap_app.
        destruct p; cbn; solve_submseteq.
Qed.

Lemma dedup_ok_run w0 tr w :
  Forall (λ e, clears e = false) tr → dedup_ok w0 w → dedup_ok w0 (run tr w).
Proof.
  revert w. induction tr as [|e tr IH]; intros w Hc Hok; [done|].
  apply Forall_cons in Hc as [He Htr]. cbn. apply IH; [done|]. by apply dedup_ok_step.
Qed.

(** At the world it is counted from, the invariant says that the threads
    are settled. *)
Lemma dedup_ok_settled w : settled w → dedup_ok w w.
Proof.
  intros [Hnd Hv]. unfold dedup_ok, claimed_fetches, claimed_records, fetched_since,
    recorded_since, since. rewrite drop_all. cbn. rewrite !app_nil_r.
  split; [done|]. split; [by apply NoDup_app in Hnd as (? & _)|]. split; [done|].
  intros url [Hu|Hu]; apply Hv; [|done]. apply elem_of_app. by left.
Qed.

Lemma settled_init cpu_count fs : settled (init cpu_count fs).
Proof. split; [apply NoDup_nil_2|]. intros url Hu. by apply elem_of_nil in Hu. Qed.

(** Without a confirmed clear the threads stay settled. *)
Lemma settled_run w0 tr :
  settled w0 → Forall (λ e, clears e = false) tr → settled (run tr w0).
Proof.
  intros Hs Hc.
  destruct (dedup_ok_run w0 tr w0 Hc (dedup_ok_settled w0 Hs)) as (_ & _ & Hr & Hv).
  unfold claimed_records in Hr. rewrite app_assoc in Hr.
  apply NoDup_app in Hr as (Hr & _). split; [done|].
  intros url Hu. apply Hv. right. unfold claimed_records. rewrite app_assoc.
  apply elem_of_app. by left.
Qed.

(** Threads that hold no URL are settled. *)
Lemma settled_empty_handed w :
  Forall (λ p, to_fetch p = None ∧ to_record p = None) (threads w) → settled w.
Proof.
  intros Hall. unfold settled.
  assert (omap to_fetch (threads w) = [] ∧ omap to_record (threads w) = []) as [Hf Hr].
  { induction Hall as [|p l [Hf Hr] _ [IHf IHr]]; [done|]. cbn. by rewrite Hf, Hr. }
  unfold held. rewrite Hf, Hr. split; [apply NoDup_nil_2|].
  intros url Hu. by apply elem_of_nil in Hu.
Qed.

Lemma worker_skip env url w n :
  url ∈ visited_urls w → unfinished_tasks w = S n →
  worker env (AtCheck url) w = (inr AtLoop, set_unfinished_tasks n w).
Proof.
  intros Hin Hn. cbn [worker worker_try]. run_m.
  destruct (decide (url ∈ visited_urls w)); [|done]. cbn. by rewrite Hn.
Qed.

(** C1, as amended: take any moment of any execution of the application
    at which every URL that a thread holds for a fetch or a record is in the
    visited set and is held by that thread only (such is every moment with
    no thread at work, and every moment before the first confirmed clear).
    In a session started at that moment, as long as the user does not
    confirm [clear_storage], no URL is requested twice and no URL is recorded
    twice, and a thread that takes from the queue a URL already in the
    visited set goes back to its loop without a request. *)
Theorem each_url_fetched_once (cpu_count : Z) (fs : gmap string string)
    (tr0 tr : list event) (io : option exn) :
  let w0 := run tr0 (init cpu_count fs) in
  settled w0 → Forall (λ e, clears e = false) tr →
  let w := run (ClickStart io :: tr) w0 in
  NoDup (fetched_since w0 w) ∧ NoDup (recorded_since w0 w).*1 ∧
  ∀ tid env url,
    threads w !! tid = Some (AtCheck url) → url ∈ visited_urls w →
    history (schedule tid env w) = history w ∧
    threads (schedule tid env w) !! tid = Some AtLoop.
Proof.
  intros w0 Hs Hc w.
  assert (Hc' : Forall (λ e, clears e = false) (ClickStart io :: tr))
    by (by constructor).
  destruct (dedup_ok_run w0 _ w0 Hc' (dedup_ok_settled w0 Hs)) as (_ & Hf & Hr & _).
  fold w in Hf, Hr. unfold claimed_fetches in Hf. unfold claimed_records in Hr.
  apply NoDup_app in Hf as (_ & _ & Hf).
  apply NoDup_app in Hr as (_ & _ & Hr). apply NoDup_app in Hr as (_ & _ & Hr).
  split; [done|]. split; [done|].
  intros tid env url Hp Hin.
  assert (Hok : tasks_ok w).
  { unfold w, w0. rewrite <- run_app. apply tasks_ok_run, tasks_ok_init. }
  destruct (holding_positive tid _ w Hok Hp eq_refl) as [n Hn].
  destruct (schedule_eq tid env w _ _ _ Hp (worker_skip env url w n Hin Hn) eq_refl)
    as [Hsch Hp1].
  split; [by rewrite Hsch|done].
Qed.
(** ** Domain restriction *)

Lemma extract_links_on_host url d hrefs links :
  d ≠ "" → extract_links url (Some d) hrefs = inr links →
  Forall (λ link, host link = Some d) links.
Proof.
  intros Hd. revert links. induction hrefs as [|href rest IH]; intros links; cbn.
  - intros [= <-]. constructor.
  - destruct (urljoin url href) as [|full_url]; [done|].
    destruct (urlparse full_url) as [|parsed] eqn:Hp; [done|].
    destruct (extract_links url (Some d) rest) as [|tl]; [done|].
    intros [= <-]. unfold domain_ok.
    rewrite (bool_decide_eq_false_2 (d = "")) by done. cbn [orb].
    case_bool_decide as Hn; cbn [andb]; [|by apply IH].
    destruct (scheme_ok parsed); [|by apply IH].
    constructor; [|by apply IH]. unfold host. rewrite Hp. by f_equal.
Qed.

Lemma crawl_page_on_host net url w d links status w' :
  restrict_domain (entries w) = true → host url = Some d → d ≠ "" →
  crawl_page net url w = (inr (links, status), w') →
  Forall (λ link, host link = Some d) links.
Proof.
  intros Hr Hh Hd. destruct net as [e|r].
  - rewrite crawl_page_failed. intros [= <- _ _]. constructor.
  - destruct (decide (status_code r = 200%Z)) as [Hs|Hs].
    + rewrite crawl_page_200 by done. rewrite Hr. unfold host in Hh.
      destruct (urlparse url) as [|parsed]; [done|]. injection Hh as Hh. rewrite Hh.
      destruct (extract_links _ _ _) as [|links'] eqn:Hx.
      * intros [= <- _ _]. constructor.
      * intros [= <- _ _]. by eapply extract_links_on_host.
    + rewrite crawl_page_not_200 by done. intros [= <- _ _]. constructor.
Qed.

Lemma confined_step d e w :
  d ≠ "" → keeps_restriction e = true → confined d w → confined d (step e w).
Proof.
  intros Hd He (Hr & Hq & Ht). destruct e as [io| |answer io| |c|tid env]; cbn [step].
  - done.
  - rewrite stop_crawler_spec. by destruct (crawler_running w).
  - destruct (clear_storage_frame answer io w) as (Hq' & _ & _ & He' & Ht' & _).
    unfold confined. by rewrite Hq', He', Ht'.
  - destruct (timers w); [done|]. run_m. cbn. by destruct (crawler_running w).
  - done.
  - destruct (schedule_cases tid env w)
      as [->|(p & p' & w' & l1 & l2 & Hl & _ & Htr & _ & ->)]; [done|].
    rewrite Hl in Ht. apply Forall_app in Ht as [Ht1 Ht2].
    apply Forall_cons in Ht2 as [Hp Ht2].
    assert (Hthreads : ∀ q, pc_on_host d q → Forall (pc_on_host d) (l1 ++ q :: l2)).
    { intros q Hq'. apply Forall_app. split; [done|]. by constructor. }
    unfold confined.
    destruct Htr as [ | |Hq'|url rest Hq'|url n Hin Hn|url Hnot|url links status w' Hc'
                    |url links status|links|dl Hdl|msg n Hdl Hn|n Hn|p msg Hh Hn]; cbn.
    + split; [done|]. split; [done|]. apply Hthreads. by destruct (crawler_running w).
    + by repeat split; try apply Hthreads.
    + by repeat split; try apply Hthreads.
    + rewrite Hq' in Hq. apply Forall_cons in Hq as [Hu Hq].
      by repeat split; try apply Hthreads.
    + by repeat split; try apply Hthreads.
    + by repeat split; try apply Hthreads.
    + pose proof (crawl_page_engine (net env) url w) as Heng. rewrite Hc' in Heng.
      unfold engine in Heng. cbn in Heng.
      assert (entries w' = entries w) as -> by congruence.
      assert (url_queue w' = url_queue w) as -> by congruence.
      split; [done|]. split; [done|]. apply Hthreads. cbn.
      by eapply crawl_page_on_host.
    + pose proof (save_url_engine (now env) (io env) url status w) as Heng.
      unfold engine, exec in *.
      assert (entries (save_url (now env) (io env) url status w).2 = entries w) as ->
        by congruence.
      assert (url_queue (save_url (now env) (io env) url status w).2 = url_queue w) as ->
        by congruence.
      by repeat split; try apply Hthreads.
    + split; [done|]. split; [|by apply Hthreads]. apply Forall_app. split; [done|].
      cbn in Hp. rewrite Forall_forall in Hp |- *.
      intros link Hin. apply list_elem_of_filter in Hin as [_ Hin]. by apply Hp.
    + by repeat split; try apply Hthreads.
    + by repeat split; try apply Hthreads.
    + by repeat split; try apply Hthreads.
    + by repeat split; try apply Hthreads.
Qed.

Lemma confined_run d tr w :
  d ≠ "" → Forall (λ e, keeps_restriction e = true) tr → confined d w →
  confined d (run tr w).
Proof.
  intros Hd. revert w. induction tr as [|e tr IH]; intros w Hk Hc; [done|].
  apply Forall_cons in Hk as [He Htr]. cbn. apply IH; [done|]. by apply confined_step.
Qed.

Lemma extract_links_complete url base hrefs links href link parsed :
  extract_links url base hrefs = inr links →
  href ∈ hrefs → urljoin url href = inr link → urlparse link = inr parsed →
  domain_ok base parsed = true → scheme_ok parsed = true →
  link ∈ links.
Proof.
  intros Hx Hin Hj Hp Hd Hs. revert links Hx.
  induction hrefs as [|h rest IH]; intros links; [by apply elem_of_nil in Hin|].
  cbn. destruct (urljoin url h) as [|full_url] eqn:Hj'; [done|].
  destruct (urlparse full_url) as [|parsed'] eqn:Hp'; [done|].
  destruct (extract_links url base rest) as [|tl]; [done|].
  intros [= <-]. apply elem_of_cons in Hin as [->|Hin].
  - assert (full_url = link) as -> by congruence.
    assert (parsed' = parsed) as -> by congruence.
    rewrite Hd, Hs. cbn. by left.
  - destruct (_ && _); [right|]; by apply IH.
Qed.

(** C3, as amended: take a session started with the restriction on and a
    seed on host [d], at a moment when whatever the threads left over from
    earlier sessions hold (a URL taken from the queue, or the links of a
    page) is on host [d]; such is every start with no thread at work.  As
    long as the restriction is left on, every URL that enters the queue of
    that session is on host [d], so a URL of another host is never enqueued;
    the argument is an invariant over the pages reached, since each link is
    compared with the host of the page it was found on.  With the restriction
    off, a link found on a page fetched with status 200 is enqueued whatever
    its host, provided the extraction raised nothing, the scheme of the link
    is http or https and the link is not visited. *)
Theorem domain_restriction (io : option exn) (w0 : World) (n : Z) (d : string)
    (tr : list event) :
  Accepted w0 n → Forall (pc_on_host d) (threads w0) →
  restrict_domain (entries w0) = true → host (seed_of w0) = Some d → d ≠ "" →
  Forall (λ e, keeps_restriction e = true) tr →
  (∀ url, url ∈ url_queue (run tr (exec (start_crawler io) w0)) → host url = Some d) ∧
  (∀ w tid e1 e2 e3 url r links href link parsed,
     restrict_domain (entries w) = false → threads w !! tid = Some (AtCrawl url) →
     net e1 = inr r → status_code r = 200%Z →
     extract_links url None (find_all_a_href (text r)) = inr links →
     href ∈ find_all_a_href (text r) → urljoin url href = inr link →
     urlparse link = inr parsed → scheme_ok parsed = true →
     link ∉ visited_urls w →
     link ∈ url_queue (run [Run tid e1; Run tid e2; Run tid e3] w)).
Proof.
  intros Hacc Hidle Hr Hseed Hd Htr. split.
  - destruct (start_accepted io w0 n Hacc) as (_ & _ & Hq & _ & Ht & He & _).
    assert (Hc : confined d (exec (start_crawler io) w0)).
    { unfold confined. rewrite Hq, Ht, He. split; [done|]. split.
      - by constructor.
      - apply Forall_app. split.
        + exact Hidle.
        + by apply Forall_replicate. }
    destruct (confined_run d tr _ Hd Htr Hc) as (_ & Hq' & _).
    intros url Hin. by eapply Forall_forall in Hq'.
  - intros w tid e1 e2 e3 url r links href link parsed Hoff Hp Hnet Hs Hx Hin Hj Hu Hsch Hv.
    pose proof (crawl_page_200 r url w Hs) as Hc. rewrite Hoff, Hx, <- Hnet in Hc.
    destruct (crawl_save_enqueue tid e1 e2 e3 w url _ _ _ Hp Hc) as (_ & _ & Hq & _).
    rewrite Hq. apply elem_of_app. right. apply list_elem_of_filter. split; [done|].
    by eapply extract_links_complete.
Qed.

(** ** Stopping *)


Lemma transition_running env w p p' w' :
  transition env w p p' w' → crawler_running w' = crawler_running w.
Proof.
  destruct 1 as [ | |Hq|url rest Hq|url n Hin Hn|url Hnot|url links status w' Hc
                |url links status|links|d Hd|msg n Hd Hn|n Hn|p msg Hh Hn]; try done.
  - pose proof (crawl_page_engine (net env) url w) as He. rewrite Hc in He.
    unfold engine in He. cbn in He. congruence.
  - pose proof (save_url_engine (now env) (io env) url status w) as He.
    unfold engine, exec in *. congruence.
Qed.




Lemma stopped_step e w :
  starts e = false → crawler_running w = false → crawler_running (step e w) = false.
Proof.
  intros Hs Hr. destruct e as [io| |answer io| |c|tid env]; cbn [step]; try done.
  - rewrite stop_crawler_spec. by rewrite Hr.
  - destruct (clear_storage_frame answer io w) as (_ & _ & Hr' & _). congruence.
  - destruct (timers w); [done|]. run_m. cbn. by rewrite Hr.
  - destruct (schedule_cases tid env w)
      as [->|(p & p' & w' & l1 & l2 & _ & _ & Ht & _ & ->)]; [done|].
    cbn. by rewrite (transition_running _ _ _ _ _ Ht).
Qed.








(** *** The history only grows *)



(** *** Time *)














(** ** The life of a worker thread *)

Lemma worker_claim env url w :
  url ∉ visited_urls w →
  worker env (AtCheck url) w =
  (inr (AtCrawl url), set_visited_urls ({[url]} ∪ visited_urls w) w).
Proof.
  intros Hnot. cbn [worker worker_try]. run_m.
  by destruct (decide (url ∈ visited_urls w)).
Qed.

(** A thread that holds an item and finds the counter positive stays in
    its loop. *)
Lemma worker_holding env p w n :
  holding p = 1 → unfinished_tasks w = S n →
  ∃ p', (worker env p w).1 = inr p' ∧ p' ≠ Exited.
Proof.
  intros Hh Hn. destruct p as [| |url|url|url links status|links| | |]; try done.
  - destruct (decide (url ∈ visited_urls w)) as [Hin|Hnot].
    + rewrite (worker_skip env url w n Hin Hn). by eexists.
    + rewrite (worker_claim env url w Hnot). by eexists.
  - destruct (crawl_page_returns (net env) url w) as [[links status] Hc].
    destruct (crawl_page (net env) url w) as [r w1] eqn:Heq. cbn in Hc. subst r.
    rewrite (worker_crawl env url w links status w1 Heq). by eexists.
  - rewrite worker_save. by eexists.
  - rewrite worker_enqueue. by eexists.
  - destruct (delay_of w) as [msg|d] eqn:Hd.
    + rewrite (worker_sleep_error env w msg n Hd Hn). by eexists.
    + rewrite (worker_sleep_ok env w d Hd). by eexists.
  - rewrite (worker_done env w n Hn). by eexists.
Qed.

(** X1: in every world reached from [__init__], whatever the user and the
    network do, no exception leaves [worker]: each step of a thread yields
    its next statement, and a thread ends only where the source says, at the
    loop test with the flag cleared or at [queue.Empty]. *)
Theorem worker_never_crashes (cpu_count : Z) (fs : gmap string string)
    (tr : list event) (tid : nat) (env : Env) (p : pc) :
  let w := run tr (init cpu_count fs) in
  threads w !! tid = Some p →
  ∃ p', (worker env p w).1 = inr p' ∧
        (p' = Exited →
         p = Exited ∨ (p = AtLoop ∧ crawler_running w = false) ∨
         (p = AtGet ∧ url_queue w = [])).
Proof.
  intros w Hp.
  assert (Hok : tasks_ok w) by apply tasks_ok_run, tasks_ok_init.
  destruct (decide (holding p = 1)) as [Hh|Hh].
  - destruct (holding_positive tid p w Hok Hp Hh) as [n Hn].
    destruct (worker_holding env p w n Hh Hn) as (p' & Hw & Hne).
    exists p'. split; [done|]. intros ->. done.
  - destruct p; try done.
    + exists (if crawler_running w then AtGet else Exited). split; [done|].
      destruct (crawler_running w); [done|]. intros _. right. by left.
    + cbn [worker worker_try]. run_m. destruct (url_queue w) as [|url rest] eqn:Hq; cbn.
      * exists Exited. split; [done|]. intros _. right. by right.
      * exists (AtCheck url). by split.
    + exists Exited. split; [done|]. intros _. by left.
Qed.

(** ** The running flag *)

Lemma running_step e w :
  stops e = false → crawler_running w = true → crawler_running (step e w) = true.
Proof.
  intros Hs Hr. destruct e as [io| |answer io| |c|tid env]; cbn [step]; try done.
  - assert (Hrej : Rejected w) by (by apply rej_running).
    by destruct (start_rejected io w Hrej) as (k & t & m & ->).
  - destruct (clear_storage_frame answer io w) as (_ & _ & Hr' & _). congruence.
  - destruct (timers w); [done|]. run_m. cbn. by rewrite Hr.
  - destruct (schedule_cases tid env w)
      as [->|(p & p' & w' & l1 & l2 & _ & _ & Ht & _ & ->)]; [done|].
    cbn. by rewrite (transition_running _ _ _ _ _ Ht).
Qed.

(** X2: only [stop_crawler] clears the running flag.  The workers leave it
    set when they exit on an empty queue, so once a crawl has run out of
    URLs a new start is still refused with a dialog, and changes nothing,
    until the user stops. *)
Theorem only_stop_clears_flag (w : World) (tr : list event) (io : option exn) :
  crawler_running w = true → Forall (λ e, stops e = false) tr →
  let w' := run tr w in
  crawler_running w' = true ∧
  exec (start_crawler io) w' =
    observe (Dialog "showinfo" "Info" "Crawler is already running") w'.
Proof.
  intros Hr Hs.
  assert (Hr' : crawler_running (run tr w) = true).
  { revert w Hr. induction tr as [|e tr IH]; intros w Hr; [done|].
    apply Forall_cons in Hs as [He Hs]. cbn [run]. apply IH; [done|].
    by apply running_step. }
  split; [done|]. run_m. by rewrite Hr'.
Qed.

(** ** The visited set *)

Lemma transition_visited env w p p' w' :
  transition env w p p' w' → visited_urls w ⊆ visited_urls w'.
Proof.
  destruct 1 as [ | |Hq|url rest Hq|url n Hin Hn|url Hnot|url links status w' Hc
                |url links status|links|d Hd|msg n Hd Hn|n Hn|p msg Hh Hn]; try done.
  - cbn. apply union_subseteq_r.
  - pose proof (crawl_page_engine (net env) url w) as He. rewrite Hc in He.
    unfold engine in He. cbn in He.
    by assert (visited_urls w' = visited_urls w) as -> by congruence.
  - pose proof (save_url_engine (now env) (io env) url status w) as He.
    unfold engine, exec in *.
    by assert (visited_urls (save_url (now env) (io env) url status w).2
               = visited_urls w) as -> by congruence.
Qed.

(** X3: the visited set only grows: no event other than a confirmed
    [clear_storage] removes a URL from it, across stops and starts. *)
Theorem visited_only_grows (w : World) (tr : list event) :
  Forall (λ e, clears e = false) tr → visited_urls w ⊆ visited_urls (run tr w).
Proof.
  revert w. induction tr as [|e tr IH]; intros w Hc; [done|].
  apply Forall_cons in Hc as [He Hc]. cbn [run].
  etrans; [|by apply IH].
  destruct e as [io| |answer io| |c|tid env]; cbn [step].
  - destruct (start_decide w) as [Hrej|[n Hacc]].
    + by destruct (start_rejected io w Hrej) as (k & t & m & ->).
    + by destruct (start_accepted io w n Hacc) as (_ & _ & _ & _ & _ & _ & _ & _ & Hv).
  - rewrite stop_crawler_spec. by destruct (crawler_running w).
  - destruct answer; [done|]. by rewrite clear_declined.
  - destruct (timers w); [done|]. run_m. cbn. by destruct (crawler_running w).
  - done.
  - destruct (schedule_cases tid env w)
      as [->|(p & p' & w' & l1 & l2 & _ & _ & Ht & _ & ->)]; [done|].
    cbn. by eapply transition_visited.
Qed.

(** ** The refresh of the statistics *)

Lemma refresh_step e w :
  (crawler_running w = true → 0 < timers w) →
  crawler_running (step e w) = true → 0 < timers (step e w).
Proof.
  intros Hinv. destruct e as [io| |answer io| |c|tid env]; cbn [step].
  - destruct (start_decide w) as [Hrej|[n Hacc]].
    + by destruct (start_rejected io w Hrej) as (k & t & m & ->).
    + intros _. destruct Hacc as [Hrun Hs Hn Hr (d & Hd & Hneg)]. unfold seed_of in *.
      unfold exec, start_crawler, update_stats, spawn_workers, parse_delay,
        parse_max_threads, except_ValueError, messagebox, log, put, try_except, value,
        raise, gets, modify, mbind, M_bind, mret, M_ret.
      rewrite Hrun. cbn. rewrite Hs. cbn. rewrite Hn. cbn.
      rewrite bool_decide_eq_true_2 by done. cbn.
      rewrite Hd. cbn. rewrite Hneg. cbn.
      match goal with |- context [load_urls io ?w1] =>
        destruct (load_urls_grows io w1) as [Hret Hg]; destruct (load_urls io w1) as [r w2]
      end.
      cbn in Hret, Hg. subst r. cbn.
      destruct Hg as (_ & _ & Hrn & _). cbn in Hrn. rewrite Hrn. cbn. lia.
  - rewrite stop_crawler_spec. destruct (crawler_running w) eqn:Hr; [done|].
    intros Hr'. apply Hinv. congruence.
  - destruct answer; [|done]. run_m. cbn. case_bool_decide; cbn.
    + destruct io; cbn; done.
    + done.
  - destruct (timers w) as [|k] eqn:Hk.
    + intros Hr. specialize (Hinv Hr). lia.
    + run_m. cbn. destruct (crawler_running w) eqn:Hr; cbn; [lia|]. intros Hr'. congruence.
  - done.
  - destruct (schedule_cases tid env w)
      as [->|(p & p' & w' & l1 & l2 & _ & _ & Ht & _ & ->)]; [done|].
    cbn. rewrite (transition_running _ _ _ _ _ Ht). intros Hr. specialize (Hinv Hr).
    assert (Heq : timers w' = timers w); [|by rewrite Heq].
    destruct Ht as [ | |Hq|url rest Hq|url n Hin Hn|url Hnot|url links status w' Hc
                   |url links status|links|d Hd|msg n Hd Hn|n Hn|p msg Hh Hn]; try done.
    * pose proof (crawl_page_engine (net env) url w) as He. rewrite Hc in He.
      unfold engine in He. cbn in He. congruence.
    * pose proof (save_url_engine (now env) (io env) url status w) as He.
      unfold engine, exec in *. congruence.
Qed.

(** X4: while a session runs a refresh of the statistics is always pending:
    in every world reached from [__init__] with the flag set, at least one
    [root.after] callback of [update_stats] is armed. *)
Theorem refresh_is_pending_while_running (cpu_count : Z)
    (fs : gmap string string) (tr : list event) :
  let w := run tr (init cpu_count fs) in
  crawler_running w = true → 0 < timers w.
Proof.
  cbn zeta.
  assert (H : ∀ w, (crawler_running w = true → 0 < timers w) →
                   crawler_running (run tr w) = true → 0 < timers (run tr w)).
  { induction tr as [|e tr IH]; intros w Hinv; [done|].
    cbn [run]. apply IH. by apply refresh_step. }
  apply H. done.
Qed.

(** ** The storage file *)

(** X5: what [load_urls] does, case by case.  A missing file leaves the
    world as it is.  A file that cannot be opened only adds the error to the
    log.  Otherwise the reader is run over the text of the file.  When it
    yields no row, the error of [next] is logged: the failure of the reader,
    or the end of the iteration.  When it yields rows, the first is skipped
    whatever it holds, and the first column of every later row that is not
    empty joins the visited set, these rows being shown in the table; this
    goes on up to the point where the decoder or the reader raises, if they
    do, and then the rows read so far stay loaded and the error is logged in
    place of the count.  Nothing is ever raised to the caller. *)
Theorem load_urls_spec (io : option exn) (w : World) :
  let filename := storage_file_entry (entries w) in
  (load_urls io w).1 = inr tt ∧
  exec (load_urls io) w =
  match files w !! filename, io with
  | None, _ => w
  | Some _, Some e => set_log_area (log_area w ++ ["Error loading URLs: " +:+ str e]) w
  | Some text, None =>
    match csv_reader text with
    | ([], failure) =>
      set_log_area
        (log_area w ++ ["Error loading URLs: " +:+ str (default StopIteration failure)]) w
    | (_ :: rows, failure) =>
      set_log_area
        (log_area w ++
         [match failure with
          | Some e => "Error loading URLs: " +:+ str e
          | None => "Loaded " +:+ pretty (size (loaded_urls rows ∪ visited_urls w)) +:+
                    " URLs from storage"
          end])
        (set_url_table (url_table w ++ loaded_rows rows)
           (set_visited_urls (loaded_urls rows ∪ visited_urls w) w))
    end
  end.
Proof. cbn zeta. unfold exec. by rewrite load_urls_cases. Qed.

Lemma load_urls_visited io w :
  visited_urls (exec (load_urls io) w) = stored_urls io w ∪ visited_urls w.
Proof.
  unfold exec, stored_urls. rewrite load_urls_cases. cbn.
  destruct (files w !! storage_file_entry (entries w)) as [text|];
    destruct io; cbn; rewrite ?(left_id_L ∅ (∪)); try done.
  destruct (csv_reader text) as [[|header rows] failure]; cbn;
    by rewrite ?(left_id_L ∅ (∪)).
Qed.

Lemma loaded_urls_app rows1 rows2 :
  loaded_urls (rows1 ++ rows2) = loaded_urls rows1 ∪ loaded_urls rows2.
Proof.
  induction rows1 as [|[|url cols] rest IH]; cbn.
  - by rewrite (left_id_L ∅ (∪)).
  - done.
  - by rewrite IH, (assoc_L (∪)).
Qed.

(** The storage file after a save that met no error. *)
Lemma save_url_file now url status w :
  let filename := storage_file_entry (entries w) in
  let w' := exec (save_url now None url status) w in
  entries w' = entries w ∧ visited_urls w' = visited_urls w ∧
  files w' !! filename = Some (appended (files w !! filename) (csv_row url now status)).
Proof.
  cbn zeta. unfold exec. rewrite save_url_ok. cbn. split; [done|]. split; [done|].
  by rewrite lookup_insert_eq.
Qed.

(** X6: a URL saved is a URL reloaded, as far as the reader reads the
    record back.  [save_url] puts the record at the end of the file, after
    the header when the file was missing; when the reader, run over the file
    after the save, yields the record as its last row and at least one row
    before it, the next [load_urls] puts the URL in the visited set, so that
    a later session does not fetch it again. *)
Theorem saved_url_is_reloaded (now url : string) (status : Z) (w : World)
    (rows : list (list string)) :
  let filename := storage_file_entry (entries w) in
  (csv_reader (appended (files w !! filename) (csv_row url now status))).1 =
    rows ++ [csv_row url now status] →
  rows ≠ [] →
  url ∈ visited_urls (exec (load_urls None) (exec (save_url now None url status) w)).
Proof.
  cbn zeta. intros Hread Hne. rewrite load_urls_visited. apply elem_of_union. left.
  destruct (save_url_file now url status w) as (He & _ & Hf).
  unfold stored_urls. rewrite He, Hf, Hread.
  destruct rows as [|header rows]; [done|]. cbn [app].
  rewrite loaded_urls_app. cbn. apply elem_of_union. right.
  apply elem_of_union. left. by apply elem_of_singleton.
Qed.

(** X7: the exception to the round trip.  When the storage file exists and
    is empty, [save_url] writes no header: the file then holds the record
    and nothing else, and the record is what [load_urls] skips as the first
    row.  The URL is not reloaded. *)
Theorem first_record_of_empty_file_is_skipped (now url : string) (status : Z)
    (w : World) :
  files w !! storage_file_entry (entries w) = Some "" → url ∉ visited_urls w →
  let w1 := exec (save_url now None url status) w in
  let w' := exec (load_urls None) w1 in
  files w1 !! storage_file_entry (entries w) = Some (csv_writerow (csv_row url now status)) ∧
  (url ∉ visited_urls w') ∧ visited_urls w' = visited_urls w.
Proof.
  intros Hf Hnot. cbn zeta.
  destruct (save_url_file now url status w) as (He & Hv & Hf').
  rewrite Hf in Hf'. split; [exact Hf'|].
  rewrite load_urls_visited. unfold stored_urls. rewrite He, Hf', Hv.
  unfold appended. cbn [String.append].
  pose proof (csv_reader_writerow (csv_row url now status)) as Hone.
  destruct (csv_reader _) as [[|header [|row rows]] failure]; cbn in Hone |- *;
    [| |lia]; by rewrite (left_id_L ∅ (∪)).
Qed.

Lemma saves_snoc records r w :
  saves (records ++ [r]) w = exec (save_url r.1.2 None r.1.1 r.2) (saves records w).
Proof. unfold saves. by rewrite foldl_app. Qed.

Lemma append_assoc (s1 s2 s3 : string) : (s1 +:+ s2) +:+ s3 = s1 +:+ s2 +:+ s3.
Proof.
  induction s1 as [|c s1 IH]; [done|].
  change (String c ((s1 +:+ s2) +:+ s3) = String c (s1 +:+ s2 +:+ s3)). by rewrite IH.
Qed.

Lemma append_nil_r (s : string) : s +:+ "" = s.
Proof.
  induction s as [|c s IH]; [done|]. change (String c (s +:+ "") = String c s).
  by rewrite IH.
Qed.

Lemma lines_snoc records r :
  lines (records ++ [r]) = lines records +:+ csv_writerow (csv_row r.1.1 r.1.2 r.2).
Proof.
  induction records as [|r' records IH]; cbn.
  - by rewrite append_nil_r.
  - by rewrite IH, append_assoc.
Qed.

(** X8: the layout of the storage file.  Starting without a file, after
    any number of successful saves the file holds the header once, then one
    line per record, in the order of the calls. *)
Theorem saves_layout (records : list (string * string * Z)) (w : World) :
  files w !! storage_file_entry (entries w) = None → records ≠ [] →
  files (saves records w) !! storage_file_entry (entries w) =
  Some (csv_writerow ["URL"; "Timestamp"; "Status"] +:+ lines records).
Proof.
  intros Hf.
  induction records as [|r records IH] using rev_ind; [done|]. intros _.
  rewrite saves_snoc.
  assert (He : entries (saves records w) = entries w).
  { clear. induction records as [|r' records IH] using rev_ind; [done|].
    rewrite saves_snoc.
    by destruct (save_url_file r'.1.2 r'.1.1 r'.2 (saves records w)) as (-> & _). }
  destruct (save_url_file r.1.2 r.1.1 r.2 (saves records w)) as (_ & _ & Hf').
  rewrite He in Hf'. rewrite Hf'. rewrite lines_snoc.
  destruct records as [|r0 records0].
  - cbn. by rewrite Hf.
  - rewrite IH by done. unfold appended. by rewrite append_assoc.
Qed.

Lemma save_url_failed now e url status w :
  save_url now (Some e) url status w =
  (inr tt, set_log_area (log_area w ++ ["Error saving " +:+ url +:+ ": " +:+ str e]) w).
Proof. done. Qed.

(** X9: a save that fails costs the record and nothing else.  When the
    file cannot be opened, [save_url] logs the error and leaves the files,
    the table and the records as they were; the thread then enqueues the
    links of the page all the same and goes on to its delay. *)
Theorem failed_save_keeps_crawling (tid : nat) (e2 e3 : Env) (x : exn)
    (url : string) (links : list string) (status : Z) (w : World) :
  threads w !! tid = Some (AtSave url links status) → io e2 = Some x →
  let w2 := run [Run tid e2; Run tid e3] w in
  files w2 = files w ∧ url_table w2 = url_table w ∧ history w2 = history w ∧
  log_area w2 = log_area w ++ ["Error saving " +:+ url +:+ ": " +:+ str x] ∧
  url_queue w2 = url_queue w ++ filter (λ link, link ∉ visited_urls w) links ∧
  threads w2 !! tid = Some AtSleep.
Proof.
  intros Hp Hio. cbn [run step].
  pose proof (worker_save e2 url links status w) as Hw.
  rewrite Hio, save_url_failed in Hw. cbn [snd] in Hw.
  destruct (schedule_eq tid e2 w _ _ _ Hp Hw eq_refl) as [-> Hp1].
  match goal with |- context [schedule tid e3 ?x] => set (wa := x) in * end.
  destruct (schedule_eq tid e3 wa _ _ _ Hp1 (worker_enqueue e3 links wa) eq_refl)
    as [-> Hp2].
  done.
Qed.

(** ** Resuming *)

Lemma start_visited io w n :
  Accepted w n →
  visited_urls (exec (start_crawler io) w) = stored_urls io w ∪ visited_urls w.
Proof.
  intros [Hrun Hs Hn Hr (d & Hd & Hneg)]. unfold seed_of in *.
  unfold exec, start_crawler, update_stats, spawn_workers, parse_delay,
    parse_max_threads, except_ValueError, messagebox, log, put, try_except, value,
    raise, gets, modify, mbind, M_bind, mret, M_ret.
  rewrite Hrun. cbn. rewrite Hs. cbn. rewrite Hn. cbn.
  rewrite bool_decide_eq_true_2 by done. cbn.
  rewrite Hd. cbn. rewrite Hneg. cbn.
  match goal with |- context [load_urls io ?w1] =>
    pose proof (load_urls_visited io w1) as Hv;
    destruct (load_urls_grows io w1) as [Hret Hg];
    unfold exec in Hv; destruct (load_urls io w1) as [r w2]
  end.
  cbn in Hret, Hg, Hv. subst r. cbn.
  destruct Hg as (_ & _ & Hrn & _). cbn in Hrn. rewrite Hrn. cbn. exact Hv.
Qed.

(** X10: a start that passes validation adds to the visited set exactly
    the URLs that [load_urls] takes from the storage file: those of the rows
    the reader yields after the first one, up to the point where the reader
    or the decoder fails, if they do.  When the seed is among them it is
    visited before any worker runs: the first worker spawned takes it from
    the queue and drops it, no request is made and the queue is left
    empty. *)
Theorem stored_seed_is_not_crawled (io : option exn) (w : World) (n : Z)
    (e1 e2 e3 : Env) :
  Accepted w n → seed_of w ∈ stored_urls io w →
  let w' := exec (start_crawler io) w in
  let tid := length (threads w) in
  let w3 := run [Run tid e1; Run tid e2; Run tid e3] w' in
  visited_urls w' = stored_urls io w ∪ visited_urls w ∧
  history w3 = history w ∧ url_queue w3 = [] ∧ threads w3 !! tid = Some AtLoop.
Proof.
  intros Hacc Hin. cbn zeta.
  pose proof (start_visited io w n Hacc) as Hv.
  destruct (start_accepted io w n Hacc) as (Hr & _ & Hq & Hu & Ht & _ & Hh & _).
  set (w' := exec (start_crawler io) w) in *.
  assert (Hseed : seed_of w ∈ visited_urls w')
    by (rewrite Hv; apply elem_of_union; by left).
  split; [done|]. cbn [run step].
  assert (Hp : threads w' !! length (threads w) = Some AtLoop).
  { rewrite Ht. rewrite lookup_app_r by lia. rewrite Nat.sub_diag.
    destruct (Z.to_nat n) eqn:Hz; [destruct Hacc; lia|done]. }
  assert (Hw1 : worker e1 AtLoop w' = (inr AtGet, w')).
  { rewrite worker_loop. by rewrite Hr. }
  destruct (schedule_eq _ e1 w' _ _ _ Hp Hw1 eq_refl) as [-> Hp1].
  match goal with |- context [schedule _ e2 ?x] => set (wa := x) in * end.
  assert (Hw2 : worker e2 AtGet wa =
                (inr (AtCheck (seed_of w)), set_url_queue [] wa)).
  { cbn [worker worker_try]. run_m. subst wa. cbn. by rewrite Hq. }
  destruct (schedule_eq _ e2 wa _ _ _ Hp1 Hw2 eq_refl) as [-> Hp2].
  match goal with |- context [schedule _ e3 ?x] => set (wb := x) in * end.
  assert (Hw3 : worker e3 (AtCheck (seed_of w)) wb =
                (inr AtLoop, set_unfinished_tasks (unfinished_tasks w) wb)).
  { apply worker_skip; subst wb wa; cbn; done. }
  destruct (schedule_eq _ e3 wb _ _ _ Hp2 Hw3 eq_refl) as [-> Hp3].
  split; [|split; [done|exact Hp3]]. subst wb wa. cbn. exact Hh.
Qed.

(** ** Link extraction *)

Lemma extract_links_cons url base href rest :
  extract_links url base (href :: rest) =
  match link_of url base href with
  | inl msg => inl msg
  | inr o =>
    match extract_links url base rest with
    | inl msg => inl msg
    | inr links => inr (match o with Some link => link :: links | None => links end)
    end
  end.
Proof.
  cbn. unfold link_of. destruct (urljoin url href) as [|full_url]; [done|].
  destruct (urlparse full_url) as [|parsed]; [done|].
  destruct (extract_links url base rest); [done|].
  by destruct (_ && _).
Qed.

(** X11: the links of a page, when no anchor makes [urljoin] or [urlparse]
    raise: each anchor contributes its joined URL if the host and scheme
    tests pass and nothing otherwise, so the links come in document order,
    with their duplicates, and are never more than the anchors. *)
Theorem extract_links_in_document_order (url : string) (base_domain : option string)
    (hrefs : list string) :
  Forall (λ href, ∃ o, link_of url base_domain href = inr o) hrefs →
  let links := omap (λ href, match link_of url base_domain href with
                             | inr o => o
                             | inl _ => None
                             end) hrefs in
  extract_links url base_domain hrefs = inr links ∧ length links ≤ length hrefs.
Proof.
  cbn zeta. induction 1 as [|href rest [o Ho] _ [IH Hlen]]; [done|].
  rewrite extract_links_cons, Ho, IH. cbn [omap list_omap]. rewrite Ho.
  destruct o; cbn; split; try done; lia.
Qed.

Lemma extract_links_raises url base hrefs href msg :
  href ∈ hrefs → link_of url base href = inl msg →
  ∃ msg', extract_links url base hrefs = inl msg'.
Proof.
  intros Hin Hl. induction hrefs as [|h rest IH]; [by apply elem_of_nil in Hin|].
  rewrite extract_links_cons. apply elem_of_cons in Hin as [<-|Hin].
  - rewrite Hl. by eexists.
  - destruct (link_of url base h); [by eexists|].
    destruct (IH Hin) as [msg' ->]. by eexists.
Qed.

(** Whether an anchor raises does not depend on the domain. *)
Lemma link_of_raises url base base' href msg :
  link_of url base href = inl msg ↔ link_of url base' href = inl msg.
Proof.
  unfold link_of. destruct (urljoin url href) as [|full_url]; [done|].
  by destruct (urlparse full_url).
Qed.

(** X12: one anchor that [urljoin] or [urlparse] rejects costs the whole
    page.  Although the response arrived with status 200, [crawl_page]
    logs the error and returns no link and the status 0, the value of a
    transport failure. *)
Theorem malformed_href_discards_page (r : Response) (url href msg : string)
    (w : World) :
  status_code r = 200%Z → href ∈ find_all_a_href (text r) →
  link_of url None href = inl msg →
  ∃ msg',
    crawl_page (inr r) url w =
    (inr ([], 0%Z),
     set_log_area (log_area w ++ ["Error crawling " +:+ url +:+ ": " +:+ msg'])
       (observe (HttpGet url) w)).
Proof.
  intros Hs Hin Hl. rewrite crawl_page_200 by done.
  destruct (restrict_domain (entries w)).
  - destruct (urlparse url) as [msg'|parsed]; [by eexists|].
    rewrite (link_of_raises url None (Some (netloc parsed))) in Hl.
    destruct (extract_links_raises url _ _ href msg Hin Hl) as [msg' ->].
    by eexists.
  - destruct (extract_links_raises url _ _ href msg Hin Hl) as [msg' ->].
    by eexists.
Qed.

Lemma extract_links_empty_base url hrefs :
  extract_links url (Some "") hrefs = extract_links url None hrefs.
Proof.
  induction hrefs as [|href rest IH]; [done|].
  rewrite !extract_links_cons, IH. unfold link_of.
  destruct (urljoin url href) as [|full_url]; [done|].
  by destruct (urlparse full_url).
Qed.

(** X13: the restriction to the domain needs a domain.  For a page whose
    URL has an empty network location the test [not base_domain] succeeds,
    and [crawl_page] returns what it returns with the check box cleared:
    links to any host. *)
Theorem restriction_void_without_netloc (r : Response) (url : string)
    (parsed : ParseResult) (w : World) :
  status_code r = 200%Z → restrict_domain (entries w) = true →
  urlparse url = inr parsed → netloc parsed = "" →
  crawl_page (inr r) url w =
  match extract_links url None (find_all_a_href (text r)) with
  | inr links => (inr (links, 200%Z), observe (HttpGet url) w)
  | inl msg =>
    (inr ([], 0%Z),
     set_log_area (log_area w ++ ["Error crawling " +:+ url +:+ ": " +:+ msg])
       (observe (HttpGet url) w))
  end.
Proof.
  intros Hs Hr Hp Hn. rewrite crawl_page_200 by done.
  by rewrite Hr, Hp, Hn, extract_links_empty_base.
Qed.

(** ** Requests and records *)

(** X14: no record without a request.  In every world reached from
    [__init__], a confirmed [clear_storage] included, the URLs recorded,
    together with those about to be, form a sub-multiset of the URLs
    requested: each record answers a request of its own, and a page is
    requested once for a record, never retried. *)
Theorem records_answer_requests (cpu_count : Z) (fs : gmap string string)
    (tr : list event) :
  let w := run tr (init cpu_count fs) in
  omap to_record (threads w) ++ (recorded w).*1 ⊆+ fetched w.
Proof.
  cbn zeta.
  assert (H : ∀ w, omap to_record (threads w) ++ (recorded w).*1 ⊆+ fetched w →
                   omap to_record (threads (run tr w)) ++ (recorded (run tr w)).*1
                     ⊆+ fetched (run tr w)); [|by apply H].
  induction tr as [|e tr IH]; intros w Hinv; [done|].
  cbn [run]. apply IH. clear IH.
  destruct e as [io| |answer io| |c|tid env]; cbn [step].
  - destruct (start_decide w) as [Hrej|[n Hacc]].
    + destruct (start_rejected io w Hrej) as (k & t & m & ->).
      unfold fetched, recorded in *. cbn. rewrite !omap_app. cbn.
      by rewrite !app_nil_r.
    + destruct (start_accepted io w n Hacc) as (_ & _ & _ & _ & Ht & _ & Hh & _).
      unfold fetched, recorded in *.
      by rewrite Ht, Hh, omap_app, to_record_spawned, app_nil_r.
  - rewrite stop_crawler_spec. by destruct (crawler_running w).
  - destruct (clear_storage_frame answer io w) as (_ & _ & _ & _ & Ht & Hh).
    unfold fetched, recorded in *. rewrite Ht, Hh, !omap_app. cbn.
    by rewrite !app_nil_r.
  - destruct (timers w); [done|]. run_m. cbn. by destruct (crawler_running w).
  - done.
  - destruct (schedule_cases tid env w)
      as [->|(p & p' & w' & l1 & l2 & Hl & _ & Ht & _ & ->)]; [done|].
    unfold fetched, recorded in *. rewrite Hl, omap_app in Hinv. cbn [threads set_threads].
    rewrite omap_app.
    destruct Ht as [ | |Hq|url rest Hq|url n Hin Hn|url Hnot|url links status w' Hc
                   |url links status|links|d Hd|msg n Hd Hn|n Hn|p msg Hh Hn];
      cbn in Hinv |- *; try done.
    + by destruct (crawler_running w).
    + pose proof (crawl_page_history (net env) url w) as Hh.
      rewrite Hc in Hh. cbn in Hh. rewrite Hh, !omap_app. cbn. rewrite app_nil_r.
      rewrite <- !app_assoc. cbn.
      etrans; [|apply submseteq_app; [exact Hinv|reflexivity]].
      rewrite <- !app_assoc. solve_submseteq.
    + pose proof (save_url_history (now env) (io env) url status w) as Hh.
      unfold exec. rewrite Hh, !omap_app.
      destruct (io env); cbn; rewrite ?app_nil_r, ?fmap_app; cbn.
      * etrans; [|exact Hinv]. solve_submseteq.
      * etrans; [|exact Hinv]. solve_submseteq.
    + rewrite !omap_app. cbn. by rewrite !app_nil_r.
    + destruct p; cbn in *; try done.
      etrans; [|exact Hinv]. solve_submseteq.
Qed.

(** ** The statistics panel *)

Lemma crawl_page_display net url w : display (crawl_page net url w).2 = display w.
Proof.
  run_m. destruct net as [e|r]; cbn; [done|].
  case_bool_decide; cbn; [done|].
  destruct (restrict_domain (entries w)); cbn.
  - destruct (urlparse url); cbn; [done|].
    destruct (extract_links _ _ _); done.
  - destruct (extract_links _ _ _); done.
Qed.

Lemma save_url_display now io url status w :
  display (save_url now io url status w).2 = display w.
Proof.
  run_m. destruct io; cbn; [done|].
  by destruct (bool_decide _).
Qed.

Lemma transition_display env w p p' w' :
  transition env w p p' w' → display w' = display w.
Proof.
  destruct 1 as [ | |Hq|url rest Hq|url n Hin Hn|url Hnot|url links status w' Hc
                |url links status|links|d Hd|msg n Hd Hn|n Hn|p msg Hh Hn]; try done.
  - pose proof (crawl_page_display (net env) url w) as He. by rewrite Hc in He.
  - apply save_url_display.
Qed.

(** X15: the panel is refreshed only while the flag is set.  After a stop,
    and until the next start or confirmed clear, the queued and visited
    counts and the status shown do not change, whatever the threads still do
    to the queue and the visited set and however many refresh callbacks
    fire. *)
Theorem stopped_display_is_frozen (w : World) (tr : list event) :
  crawler_running w = false →
  Forall (λ e, starts e = false) tr → Forall (λ e, clears e = false) tr →
  display (run tr w) = display w.
Proof.
  revert w. induction tr as [|e tr IH]; intros w Hr Hs Hc; [done|].
  apply Forall_cons in Hs as [Hse Hs]. apply Forall_cons in Hc as [Hce Hc].
  cbn [run]. rewrite IH; [|by apply stopped_step|done|done].
  destruct e as [io| |answer io| |c|tid env]; cbn [step]; try done.
  - rewrite stop_crawler_spec. by rewrite Hr.
  - destruct answer; [done|]. by rewrite clear_declined.
  - destruct (timers w); [done|]. run_m. cbn. by rewrite Hr.
  - destruct (schedule_cases tid env w)
      as [->|(p & p' & w' & l1 & l2 & _ & _ & Ht & _ & ->)]; [done|].
    by apply (transition_display _ _ _ _ _ Ht).
Qed.

(** ** The queue *)

(** X16: the queue is not deduplicated.  The second critical section
    tests a link against the visited set only: a link that is not visited is
    appended as many times as it stands among the links of the page, on top
    of the copies already pending. *)
Theorem pending_link_is_enqueued_again (tid : nat) (env : Env) (links : list string)
    (link : string) (w : World) :
  threads w !! tid = Some (AtEnqueue links) → link ∉ visited_urls w →
  occurrences link (url_queue (schedule tid env w)) =
  occurrences link (url_queue w) + occurrences link links.
Proof.
  intros Hp Hnot.
  destruct (schedule_eq tid env w _ _ _ Hp (worker_enqueue env links w) eq_refl)
    as [-> _].
  unfold occurrences. cbn. rewrite filter_app, length_app. f_equal.
  clear Hp. induction links as [|l links IH]; [done|].
  destruct (decide (l = link)) as [->|Hne].
  - rewrite (filter_cons_True (λ l, l ∉ visited_urls w)) by done.
    rewrite !(filter_cons_True (λ u, u = link)) by done. cbn. by rewrite IH.
  - rewrite (filter_cons_False (λ u, u = link) l links) by done.
    destruct (decide (l ∈ visited_urls w)) as [Hin|Hout].
    + by rewrite (filter_cons_False (λ l, l ∉ visited_urls w)) by (intros H; by apply H).
    + rewrite (filter_cons_True (λ l, l ∉ visited_urls w)) by done.
      by rewrite (filter_cons_False (λ u, u = link)) by done.
Qed.

(** ** A storage file that cannot be read *)

(** X17: an unreadable storage file does not prevent the start.  When
    every check passes and opening the file fails, [start_crawler] logs the
    error of [load_urls], then its own success: the session starts with the
    visited set as it was, the seed in the queue and the workers spawned. *)
Theorem unreadable_storage_does_not_block_start (e : exn) (w : World) (n : Z)
    (text : string) :
  Accepted w n → files w !! storage_file_entry (entries w) = Some text →
  let w' := exec (start_crawler (Some e)) w in
  crawler_running w' = true ∧ visited_urls w' = visited_urls w ∧
  url_queue w' = [seed_of w] ∧
  threads w' = threads w ++ replicate (Z.to_nat n) AtLoop ∧
  log_area w' = log_area w ++
    ["Error loading URLs: " +:+ str e; "Crawler started successfully"].
Proof.
  intros Hacc Hf. cbn zeta.
  pose proof (start_visited (Some e) w n Hacc) as Hv.
  destruct (start_accepted (Some e) w n Hacc) as (Hr & _ & Hq & _ & Ht & _).
  split; [done|]. split.
  { rewrite Hv. unfold stored_urls. rewrite Hf. by rewrite (left_id_L ∅ (∪)). }
  split; [done|]. split; [done|].
  destruct Hacc as [Hrun Hs Hn Hrg (d & Hd & Hneg)]. unfold seed_of in *.
  unfold exec, start_crawler, update_stats, spawn_workers, parse_delay,
    parse_max_threads, except_ValueError, messagebox, log, put, try_except, value,
    raise, gets, modify, mbind, M_bind, mret, M_ret.
  rewrite Hrun. cbn. rewrite Hs. cbn. rewrite Hn. cbn.
  rewrite bool_decide_eq_true_2 by done. cbn.
  rewrite Hd. cbn. rewrite Hneg. cbn.
  rewrite load_urls_cases. cbn. rewrite Hf. cbn. by rewrite <- app_assoc.
Qed.

End Properties.

(** * The claims on concrete sessions *)

Import Reference Session Cases.

Lemma fresh_accepted : Accepted fresh 2.
Proof. split; [concretely ..|]. exists 0%Q. split; concretely. Qed.

Lemma restart_accepted : Accepted (exec stop_crawler sleeping) 2.
Proof. split; [concretely ..|]. exists 0%Q. split; concretely. Qed.

Lemma halted_accepted : Accepted halted 2.
Proof. split; [concretely ..|]. exists 0%Q. split; concretely. Qed.


Lemma taken_tasks_ok : tasks_ok taken.
Proof. unfold tasks_ok. concretely. Qed.

Lemma sleeping_tasks_ok : tasks_ok sleeping.
Proof. unfold tasks_ok. concretely. Qed.

(** ** Sessions that satisfy the hypotheses of the theorems *)

Lemma each_url_fetched_once_witness :
  let w0 := run earlier (init 4 ∅) in
  let w := run (ClickStart None :: revisit) w0 in
  settled w0 ∧ Forall (λ e, clears e = false) revisit ∧
  threads w !! 3 = Some (AtCheck "https://a.com/y") ∧
  "https://a.com/y" ∈ visited_urls w ∧
  NoDup (fetched_since w0 w) ∧ NoDup (recorded_since w0 w).*1 ∧
  history (schedule 3 leaf w) = history w ∧
  threads (schedule 3 leaf w) !! 3 = Some AtLoop.
Proof.
  intros w0 w.
  assert (Hs : settled w0).
  { apply settled_empty_handed.
    assert (Ht : threads w0 = [AtSleep; AtLoop]) by concretely.
    rewrite Ht. by repeat constructor. }
  assert (Hc : Forall (λ e, clears e = false) revisit) by repeat constructor.
  assert (Hp : threads w !! 3 = Some (AtCheck "https://a.com/y")) by concretely.
  assert (Hv : "https://a.com/y" ∈ visited_urls w) by decided.
  destruct (each_url_fetched_once 4 ∅ earlier revisit None Hs Hc) as (Hf & Hr & Hskip).
  destruct (Hskip 3 leaf "https://a.com/y" Hp Hv) as [Hh Ht].
  split_and!; done.
Defined.

Lemma clear_storage_spec_witness :
  (∀ io, exec (clear_storage false io) taken =
         observe (Dialog "askyesno" "Confirm" "Delete all crawled data?") taken) ∧
  let w' := exec (clear_storage true None) taken in
  visited_urls w' = ∅ ∧
  files w' !! storage_file_entry (entries w') = None ∧
  (∀ io, exec (load_urls io) w' = w') ∧
  url_table w' = [] ∧ current_status w' = "Idle" ∧
  crawler_running w' = crawler_running taken ∧ url_queue w' = url_queue taken ∧
  threads w' = threads taken.
Proof. exact (clear_storage_spec taken). Defined.

Lemma domain_restriction_witness :
  Accepted halted 2 ∧ Forall (pc_on_host "a.com") (threads halted) ∧
  threads halted !! 0 = Some (AtCrawl "https://a.com") ∧
  restrict_domain (entries halted) = true ∧ host (seed_of halted) = Some "a.com" ∧
  "a.com" ≠ "" ∧ Forall (λ e, keeps_restriction e = true) crawling ∧
  (∀ url, url ∈ url_queue (run crawling (exec (start_crawler None) halted)) →
          host url = Some "a.com") ∧
  "https://b.com/page" ∈
    url_queue (run [Run 0 home; Run 0 home; Run 0 home] taken_unrestricted).
Proof.
  assert (Hne : "a.com" ≠ "") by discriminate.
  assert (Ht : threads halted = [AtCrawl "https://a.com"; AtLoop]) by concretely.
  assert (Hheld : Forall (pc_on_host "a.com") (threads halted)).
  { rewrite Ht. repeat constructor. }
  assert (Hr : restrict_domain (entries halted) = true) by concretely.
  assert (Hseed : host (seed_of halted) = Some "a.com") by concretely.
  assert (Hkeep : Forall (λ e, keeps_restriction e = true) crawling)
    by repeat constructor.
  destruct (domain_restriction None halted 2 "a.com" crawling halted_accepted Hheld
              Hr Hseed Hne Hkeep) as [Hon Hoff].
  split; [exact halted_accepted|]. split; [exact Hheld|]. split; [by rewrite Ht|].
  split; [exact Hr|]. split; [exact Hseed|]. split; [exact Hne|]. split; [exact Hkeep|].
  split; [exact Hon|].
  apply (Hoff taken_unrestricted 0 home home home "https://a.com" home_page
           ["https://a.com"; "https://a.com/x"; "https://b.com/page"]
           "https://b.com/page" "https://b.com/page"
           {| scheme := "https"; netloc := "b.com" |}); first [concretely | decided].
Defined.

Lemma transport_failure_recovered_witness :
  threads taken !! 0 = Some (AtCrawl "https://a.com") ∧
  net refused = inl refusal ∧ io home = None ∧ tasks_ok taken ∧
  crawler_running taken = true ∧
  let w3 := run [Run 0 refused; Run 0 home; Run 0 home] taken in
  let w5 := run [Run 0 home; Run 0 home] w3 in
  let filename := storage_file_entry (entries taken) in
  let row := ["https://a.com"; now home; "0"] in
  history w3 = history taken ++
    [HttpGet "https://a.com"; Recorded "https://a.com" (now home) 0%Z] ∧
  files w3 = <[filename := appended (files taken !! filename) row]> (files taken) ∧
  url_table w3 = url_table taken ++ [row] ∧
  log_area w3 = log_area taken ++
    ["Error crawling " +:+ "https://a.com" +:+ ": " +:+ str refusal;
     crawled_line "https://a.com" 0%Z] ∧
  url_queue w3 = url_queue taken ∧
  threads w3 !! 0 = Some AtSleep ∧
  (threads w5 !! 0 = Some AtLoop ∨ threads w5 !! 0 = Some AtGet).
Proof.
  do 3 (split; [concretely|]). split; [exact taken_tasks_ok|]. split; [concretely|].
  apply (transport_failure_recovered 0 refused home home home home refusal
           "https://a.com" taken); first [exact taken_tasks_ok | concretely].
Defined.


Lemma start_validation_witness :
  let w := configured (settings "ftp://a.com" "17" "-1" true) in
  let w' := exec (start_crawler None) w in
  Rejected w ∧ threads w' = threads w ∧ current_status w' = "Idle" ∧
  Accepted fresh 2 ∧
  threads (exec (start_crawler None) fresh) =
    threads fresh ++ replicate (Z.to_nat 2) AtLoop.
Proof.
  assert (Hrej : Rejected (configured (settings "ftp://a.com" "17" "-1" true)))
    by (apply rej_scheme; concretely).
  destruct (start_validation None (configured (settings "ftp://a.com" "17" "-1" true)))
    as (Hno & _ & _).
  destruct (Hno Hrej) as (_ & Ht & Hs & _).
  destruct (start_validation None fresh) as (_ & Hyes & _).
  destruct (Hyes 2%Z fresh_accepted) as (_ & _ & _ & Hspawn).
  split; [exact Hrej|]. split; [exact Ht|]. split; [by rewrite Hs|].
  split; [exact fresh_accepted|exact Hspawn].
Defined.

Lemma non_success_status_recorded_witness :
  threads taken !! 0 = Some (AtCrawl "https://a.com") ∧
  net broken = inr broken_page ∧ status_code broken_page ≠ 200%Z ∧ io home = None ∧
  let w3 := run [Run 0 broken; Run 0 home; Run 0 home] taken in
  let filename := storage_file_entry (entries taken) in
  let row := ["https://a.com"; now home; pretty (status_code broken_page)] in
  history w3 = history taken ++
    [HttpGet "https://a.com";
     Recorded "https://a.com" (now home) (status_code broken_page)] ∧
  files w3 = <[filename := appended (files taken !! filename) row]> (files taken) ∧
  url_table w3 = url_table taken ++ [row] ∧
  log_area w3 = log_area taken ++ [crawled_line "https://a.com" (status_code broken_page)] ∧
  url_queue w3 = url_queue taken ∧
  threads w3 !! 0 = Some AtSleep.
Proof.
  do 4 (split; [concretely|]).
  apply (non_success_status_recorded 0 broken home home broken_page "https://a.com" taken);
    concretely.
Defined.

Lemma restart_keeps_visited_reseeds_queue_witness :
  let w' := run [ClickStop; ClickStart None] sleeping in
  Accepted (exec stop_crawler sleeping) 2 ∧
  visited_urls sleeping ⊆ visited_urls w' ∧
  url_queue w' = [seed_of sleeping].
Proof.
  destruct (restart_keeps_visited_reseeds_queue None sleeping) as (Hv & Hq & _).
  split; [exact restart_accepted|]. split; [exact Hv|exact (Hq 2%Z restart_accepted)].
Defined.

Lemma extraction_only_on_200_witness :
  status_code partial_page ≠ 200%Z ∧
  crawl_page (inr partial_page) "https://a.com" taken =
    (inr ([], status_code partial_page), observe (HttpGet "https://a.com") taken) ∧
  ∀ tid e1 e2 e3,
    threads taken !! tid = Some (AtCrawl "https://a.com") → net e1 = inr partial_page →
    url_queue (run [Run tid e1; Run tid e2; Run tid e3] taken) = url_queue taken.
Proof.
  split; [concretely|].
  apply (extraction_only_on_200 partial_page "https://a.com" taken). concretely.
Defined.

Lemma politeness_delay_reread_witness :
  let c := settings "https://a.com" "2" "-1" true in
  threads sleeping !! 0 = Some AtSleep ∧ tasks_ok sleeping ∧
  let w' := run [Edit c; Run 0 home] sleeping in
  (∀ d, float_of_str (politeness_delay_entry c) = inr d → time_sleep d = None →
        history w' = history sleeping ++ [Slept d] ∧ threads w' !! 0 = Some AtDone) ∧
  (∀ msg, float_of_str (politeness_delay_entry c) = inl msg →
          recovered 0 msg sleeping w') ∧
  (∀ d, float_of_str (politeness_delay_entry c) = inr d → float_ltz d = true →
        ∃ msg, time_sleep d = Some msg ∧ recovered 0 msg sleeping w').
Proof.
  split; [concretely|]. split; [exact sleeping_tasks_ok|].
  apply (politeness_delay_reread 0 home (settings "https://a.com" "2" "-1" true) sleeping);
    first [exact sleeping_tasks_ok | concretely].
Defined.

(** ** Sessions on which the claims as stated fail *)

(** C1 as stated.  Within one session, never stopped, the user confirms
    [clear_storage] after the seed is recorded; the seed, a link of its own
    page, is enqueued, fetched and recorded a second time.  And with no clear
    during the session: a session is stopped and cleared while thread 0 is
    about to fetch the seed; in the session started next, thread 0 records
    the seed and so does thread 2. *)
Lemma seed_fetched_twice_after_clear :
  (let w := run cleared_midway fresh in
   crawler_running w = true ∧
   fetched w = ["https://a.com"; "https://a.com"] ∧
   (recorded w).*1 = ["https://a.com"; "https://a.com"] ∧
   ¬ NoDup (recorded w).*1) ∧
  (let w0 := run [ClickStop; ClickClear true None] taken in
   let w := run (ClickStart None :: stale_fetch) w0 in
   Forall (λ e, clears e = false) stale_fetch ∧
   held w0 = ["https://a.com"] ∧ elements (visited_urls w0) = [] ∧
   (recorded_since w0 w).*1 = ["https://a.com"; "https://a.com"] ∧
   ¬ NoDup (recorded_since w0 w).*1).
Proof.
  split.
  - do 3 (split; [concretely|]).
    intros Hnd. vm_compute in Hnd. apply NoDup_cons in Hnd as [Hnot _].
    apply Hnot. constructor.
  - split; [repeat constructor|]. do 3 (split; [concretely|]).
    intros Hnd. vm_compute in Hnd. apply NoDup_cons in Hnd as [Hnot _].
    apply Hnot. constructor.
Qed.

(** C2 as stated: while a session is running, a confirmed [clear_storage]
    raises nothing and empties the visited set. *)
Lemma clear_storage_during_session :
  let w' := exec (clear_storage true None) taken in
  crawler_running taken = true ∧
  elements (visited_urls taken) = ["https://a.com"] ∧
  elements (visited_urls w') = [] ∧
  current_status w' = "Idle" ∧ crawler_running w' = true ∧
  history w' = [Dialog "askyesno" "Confirm" "Delete all crawled data?"] ∧
  log_area w' = ["Crawler started successfully"; "Storage cleared successfully"].
Proof. split_and!; concretely. Qed.

(** C3 as stated.  A thread of an unrestricted session holds the links of
    a page when the user stops, ticks the restriction and starts again with
    the seed [https://a.com]; the thread then enqueues the link to [b.com] in
    the restricted session.  So does a thread that held no page yet, only the
    URL [https://b.com/page] it had taken from the queue: it fetches the page
    in the restricted session and enqueues the link to [https://b.com/q]. *)
Lemma stale_thread_enqueues_other_host :
  (let w := run [Run 0 home; ClickStop;
                 Edit (settings "https://a.com" "2" "0" true); ClickStart None;
                 Run 0 home; Run 0 home] taken_unrestricted in
   crawler_running w = true ∧ restrict_domain (entries w) = true ∧
   seed_of w = "https://a.com" ∧
   url_queue w = ["https://a.com"; "https://a.com/x"; "https://b.com/page"] ∧
   host "https://b.com/page" = Some "b.com") ∧
  (let w := run [ClickStop;
                 Edit (settings "https://a.com" "2" "0" true); ClickStart None;
                 Run 0 other_host; Run 0 other_host; Run 0 other_host] strayed in
   threads strayed !! 0 = Some (AtCrawl "https://b.com/page") ∧
   crawler_running w = true ∧ restrict_domain (entries w) = true ∧
   seed_of w = "https://a.com" ∧
   url_queue w = ["https://a.com"; "https://b.com/q"] ∧
   host "https://b.com/q" = Some "b.com").
Proof. split; split_and!; concretely. Qed.

(** C6 as stated: a start during a running session is refused and leaves
    the status [Running], not [Idle]. *)
Lemma second_start_leaves_running_status :
  let w := exec (start_crawler None) fresh in
  let w' := exec (start_crawler None) w in
  crawler_running w = true ∧
  history w' = [Dialog "showinfo" "Info" "Crawler is already running"] ∧
  threads w' = threads w ∧
  current_status w' = "Running" ∧ current_status w' ≠ "Idle".
Proof. split_and!; concretely. Qed.

(** C8 as stated: the URL pending when the session is stopped is gone from
    the queue after the next start. *)
Lemma pending_url_dropped_on_restart :
  let w' := run [ClickStop; ClickStart None] sleeping in
  url_queue sleeping = ["https://a.com/x"] ∧
  url_queue w' = ["https://a.com"] ∧
  elements (visited_urls w') = elements (visited_urls sleeping).
Proof. split_and!; concretely. Qed.


(** ** The examples of the specification *)

Example start_with_zero_threads :
  let w' := exec (start_crawler None) (configured (settings "https://a.com" "0" "0" true)) in
  current_status w' = "Idle" ∧ threads w' = [] ∧
  history w' = [Dialog "showerror" "Error" "Max threads must be 1-16"].
Proof. split_and!; concretely. Qed.

Example start_with_seventeen_threads :
  let w' := exec (start_crawler None) (configured (settings "https://a.com" "17" "0" true)) in
  current_status w' = "Idle" ∧ threads w' = [] ∧
  history w' = [Dialog "showerror" "Error" "Max threads must be 1-16"].
Proof. split_and!; concretely. Qed.

Example start_with_ftp_seed :
  let w' := exec (start_crawler None) (configured (settings "ftp://a.com" "2" "0" true)) in
  current_status w' = "Idle" ∧ threads w' = [] ∧
  history w' =
    [Dialog "showerror" "Error" "Invalid URL - must start with http:// or https://"].
Proof. split_and!; concretely. Qed.

Example start_with_negative_delay :
  let w' := exec (start_crawler None) (configured (settings "https://a.com" "2" "-0.5" true)) in
  current_status w' = "Idle" ∧ threads w' = [] ∧ crawler_running w' = false.
Proof. split_and!; concretely. Qed.

Example restricted_session_skips_other_host :
  url_queue sleeping = ["https://a.com/x"].
Proof. concretely. Qed.

Example unrestricted_session_takes_other_host :
  url_queue (run [Run 0 home; Run 0 home; Run 0 home] taken_unrestricted) =
  ["https://a.com/x"; "https://b.com/page"].
Proof. concretely. Qed.

Example server_error_is_recorded :
  let w := run [Run 0 broken; Run 0 home; Run 0 home] taken in
  recorded w = [("https://a.com", 500%Z)] ∧ url_queue w = [] ∧
  log_area w = ["Crawler started successfully"; "Crawled: https://a.com (Status: 500)"].
Proof. split_and!; concretely. Qed.

Example connection_error_is_recorded :
  let w := run [Run 0 refused; Run 0 home; Run 0 home] taken in
  recorded w = [("https://a.com", 0%Z)] ∧ url_queue w = [] ∧
  log_area w = ["Crawler started successfully";
                "Error crawling https://a.com: connection refused";
                "Crawled: https://a.com (Status: 0)"].
Proof. split_and!; concretely. Qed.

Example delay_not_a_number :
  let w := run [Edit (settings "https://a.com" "2" "soon" true); Run 0 home; Run 0 home]
               sleeping in
  threads w !! 0 = Some AtGet ∧
  log_area w = log_area sleeping ++
    ["Worker error: could not convert string to float: 'soon'"].
Proof. split_and!; concretely. Qed.

Example delay_negative :
  let w := run [Edit (settings "https://a.com" "2" "-1" true); Run 0 home; Run 0 home]
               sleeping in
  threads w !! 0 = Some AtGet ∧
  log_area w = log_area sleeping ++ ["Worker error: sleep length must be non-negative"].
Proof. split_and!; concretely. Qed.

(** * Further properties on concrete sessions *)

Import Cases.

Lemma worker_never_crashes_witness :
  let w := run undisturbed (init 4 ∅) in
  let p := AtEnqueue ["https://a.com"; "https://a.com/x"] in
  threads w !! 0 = Some p ∧
  ∃ p', (worker home p w).1 = inr p' ∧
        (p' = Exited →
         p = Exited ∨ (p = AtLoop ∧ crawler_running w = false) ∨
         (p = AtGet ∧ url_queue w = [])).
Proof.
  split; [concretely|].
  apply (worker_never_crashes 4 ∅ undisturbed 0 home
           (AtEnqueue ["https://a.com"; "https://a.com/x"])).
  concretely.
Defined.

Lemma only_stop_clears_flag_witness :
  crawler_running taken = true ∧ Forall (λ e, stops e = false) winding_down ∧
  let w' := run winding_down taken in
  crawler_running w' = true ∧
  exec (start_crawler None) w' =
    observe (Dialog "showinfo" "Info" "Crawler is already running") w'.
Proof.
  split; [concretely|]. split; [repeat constructor|].
  apply (only_stop_clears_flag taken winding_down None); [concretely|repeat constructor].
Defined.

Lemma visited_only_grows_witness :
  Forall (λ e, clears e = false) winding_down ∧
  visited_urls taken ⊆ visited_urls (run winding_down taken).
Proof.
  split; [repeat constructor|].
  apply (visited_only_grows taken winding_down). repeat constructor.
Defined.

Lemma refresh_is_pending_while_running_witness :
  let w := run undisturbed (init 4 ∅) in
  crawler_running w = true ∧ 0 < timers w.
Proof.
  split; [concretely|].
  apply (refresh_is_pending_while_running 4 ∅ undisturbed). concretely.
Defined.

Lemma saved_url_is_reloaded_witness :
  let now := "2024-05-01 12:00:05" in
  let url := "https://a.com/x" in
  let rows := [["URL"; "Timestamp"; "Status"];
               ["https://a.com"; "2024-05-01 12:00:00"; "200"]] in
  (csv_reader (appended (files stopped !! storage_file_entry (entries stopped))
                 (csv_row url now 404%Z))).1 = rows ++ [csv_row url now 404%Z] ∧
  rows ≠ [] ∧
  url ∈ visited_urls (exec (load_urls None) (exec (save_url now None url 404%Z) stopped)).
Proof.
  cbn zeta.
  assert (H1 : (csv_reader
                  (appended (files stopped !! storage_file_entry (entries stopped))
                     (csv_row "https://a.com/x" "2024-05-01 12:00:05" 404%Z))).1 =
               [["URL"; "Timestamp"; "Status"];
                ["https://a.com"; "2024-05-01 12:00:00"; "200"]] ++
               [csv_row "https://a.com/x" "2024-05-01 12:00:05" 404%Z]) by concretely.
  assert (H2 : [["URL"; "Timestamp"; "Status"];
                ["https://a.com"; "2024-05-01 12:00:00"; "200"]] ≠ []) by discriminate.
  split; [exact H1|]. split; [exact H2|].
  exact (saved_url_is_reloaded "2024-05-01 12:00:05" "https://a.com/x" 404%Z stopped _
           H1 H2).
Defined.

Lemma first_record_of_empty_file_is_skipped_witness :
  files on_empty_file !! storage_file_entry (entries on_empty_file) = Some "" ∧
  ("https://a.com" ∉ visited_urls on_empty_file) ∧
  let w1 := exec (save_url "2024-05-01 12:00:00" None "https://a.com" 200%Z)
              on_empty_file in
  let w' := exec (load_urls None) w1 in
  files w1 !! storage_file_entry (entries on_empty_file) =
    Some (csv_writerow (csv_row "https://a.com" "2024-05-01 12:00:00" 200%Z)) ∧
  ("https://a.com" ∉ visited_urls w') ∧ visited_urls w' = visited_urls on_empty_file.
Proof.
  assert (H1 : files on_empty_file !! storage_file_entry (entries on_empty_file)
               = Some "") by concretely.
  assert (H2 : "https://a.com" ∉ visited_urls on_empty_file) by decided.
  split; [exact H1|]. split; [exact H2|].
  exact (first_record_of_empty_file_is_skipped "2024-05-01 12:00:00" "https://a.com"
           200%Z on_empty_file H1 H2).
Defined.

Lemma saves_layout_witness :
  files fresh !! storage_file_entry (entries fresh) = None ∧ three_records ≠ [] ∧
  files (saves three_records fresh) !! storage_file_entry (entries fresh) =
  Some (csv_writerow ["URL"; "Timestamp"; "Status"] +:+ lines three_records).
Proof.
  assert (H1 : files fresh !! storage_file_entry (entries fresh) = None) by concretely.
  assert (H2 : three_records ≠ []) by discriminate.
  split; [exact H1|]. split; [exact H2|].
  exact (saves_layout three_records fresh H1 H2).
Defined.

Lemma failed_save_keeps_crawling_witness :
  let links := ["https://a.com"; "https://a.com/x"] in
  threads fetched_seed !! 0 = Some (AtSave "https://a.com" links 200%Z) ∧
  io unwritable = Some disk_full ∧
  let w2 := run [Run 0 unwritable; Run 0 home] fetched_seed in
  files w2 = files fetched_seed ∧ url_table w2 = url_table fetched_seed ∧
  history w2 = history fetched_seed ∧
  log_area w2 = log_area fetched_seed ++
    ["Error saving " +:+ "https://a.com" +:+ ": " +:+ str disk_full] ∧
  url_queue w2 = url_queue fetched_seed ++
    filter (λ link, link ∉ visited_urls fetched_seed) links ∧
  threads w2 !! 0 = Some AtSleep.
Proof.
  split; [concretely|]. split; [concretely|].
  apply (failed_save_keeps_crawling 0 unwritable home disk_full "https://a.com"
           ["https://a.com"; "https://a.com/x"] 200%Z fetched_seed); concretely.
Defined.

Lemma stored_seed_is_not_crawled_witness :
  Accepted stopped 2 ∧ seed_of stopped ∈ stored_urls None stopped ∧
  let w' := exec (start_crawler None) stopped in
  let tid := length (threads stopped) in
  let w3 := run [Run tid home; Run tid home; Run tid home] w' in
  visited_urls w' = stored_urls None stopped ∪ visited_urls stopped ∧
  history w3 = history stopped ∧ url_queue w3 = [] ∧ threads w3 !! tid = Some AtLoop.
Proof.
  assert (H : seed_of stopped ∈ stored_urls None stopped) by decided.
  split; [exact restart_accepted|]. split; [exact H|].
  exact (stored_seed_is_not_crawled None stopped 2 home home home restart_accepted H).
Defined.

Lemma extract_links_in_document_order_witness :
  let hrefs := ["https://a.com"; "/x"; "https://b.com/page"; "/x"] in
  let base := Some "a.com" in
  Forall (λ href, ∃ o, link_of "https://a.com" base href = inr o) hrefs ∧
  let links := omap (λ href, match link_of "https://a.com" base href with
                             | inr o => o
                             | inl _ => None
                             end) hrefs in
  extract_links "https://a.com" base hrefs = inr links ∧ length links ≤ length hrefs.
Proof.
  assert (H : Forall (λ href, ∃ o, link_of "https://a.com" (Some "a.com") href = inr o)
                ["https://a.com"; "/x"; "https://b.com/page"; "/x"])
    by (repeat constructor; eexists; concretely).
  split; [exact H|].
  exact (extract_links_in_document_order "https://a.com" (Some "a.com") _ H).
Defined.

Lemma restriction_void_without_netloc_witness :
  let url := "https:///x" in
  let parsed := {| scheme := "https"; netloc := "" |} in
  status_code home_page = 200%Z ∧ restrict_domain (entries fresh) = true ∧
  urlparse url = inr parsed ∧ netloc parsed = "" ∧
  crawl_page (inr home_page) url fresh =
  match extract_links url None (find_all_a_href (text home_page)) with
  | inr links => (inr (links, 200%Z), observe (HttpGet url) fresh)
  | inl msg =>
    (inr ([], 0%Z),
     set_log_area (log_area fresh ++ ["Error crawling " +:+ url +:+ ": " +:+ msg])
       (observe (HttpGet url) fresh))
  end.
Proof.
  do 4 (split; [concretely|]).
  apply (restriction_void_without_netloc home_page "https:///x"
           {| scheme := "https"; netloc := "" |} fresh); concretely.
Defined.

Lemma stopped_display_is_frozen_witness :
  crawler_running stopped = false ∧
  Forall (λ e, starts e = false) winding_down ∧
  Forall (λ e, clears e = false) winding_down ∧
  display (run winding_down stopped) = display stopped.
Proof.
  split; [concretely|]. split; [repeat constructor|]. split; [repeat constructor|].
  apply (stopped_display_is_frozen stopped winding_down);
    first [concretely | repeat constructor].
Defined.

Lemma pending_link_is_enqueued_again_witness :
  threads requeueing !! 1 = Some (AtEnqueue ["https://a.com/y"]) ∧
  ("https://a.com/y" ∉ visited_urls requeueing) ∧
  occurrences "https://a.com/y" (url_queue (schedule 1 leaf requeueing)) =
  occurrences "https://a.com/y" (url_queue requeueing) +
  occurrences "https://a.com/y" ["https://a.com/y"].
Proof.
  assert (H1 : threads requeueing !! 1 = Some (AtEnqueue ["https://a.com/y"]))
    by concretely.
  assert (H2 : "https://a.com/y" ∉ visited_urls requeueing) by decided.
  split; [exact H1|]. split; [exact H2|].
  exact (pending_link_is_enqueued_again 1 leaf ["https://a.com/y"] "https://a.com/y"
           requeueing H1 H2).
Defined.

Lemma unreadable_storage_does_not_block_start_witness :
  let text := csv_writerow ["URL"; "Timestamp"; "Status"] +:+
              csv_writerow ["https://a.com"; "2024-05-01 12:00:00"; "200"] in
  Accepted stopped 2 ∧
  files stopped !! storage_file_entry (entries stopped) = Some text ∧
  let w' := exec (start_crawler (Some disk_full)) stopped in
  crawler_running w' = true ∧ visited_urls w' = visited_urls stopped ∧
  url_queue w' = [seed_of stopped] ∧
  threads w' = threads stopped ++ replicate (Z.to_nat 2) AtLoop ∧
  log_area w' = log_area stopped ++
    ["Error loading URLs: " +:+ str disk_full; "Crawler started successfully"].
Proof.
  split; [exact restart_accepted|]. split; [concretely|].
  apply (unreadable_storage_does_not_block_start disk_full stopped 2
           (csv_writerow ["URL"; "Timestamp"; "Status"] +:+
            csv_writerow ["https://a.com"; "2024-05-01 12:00:00"; "200"]));
    [exact restart_accepted|concretely].
Defined.

(** The examples of the storage file and of the queue, evaluated. *)

Example empty_file_swallows_first_record :
  let w := exec (save_url "2024-05-01 12:00:00" None "https://a.com" 200%Z) on_empty_file in
  (csv_reader (file_text "crawled_urls.csv" w)).1 =
    [["https://a.com"; "2024-05-01 12:00:00"; "200"]] ∧
  elements (visited_urls (exec (load_urls None) w)) = [].
Proof. split_and!; concretely. Qed.

(** Where the reader does not read a record back: a carriage return in a
    URL comes back as a line feed, and a record appended to a file whose last
    line has no line end is read as the end of that line. *)
Example records_not_read_back :
  let cr := String Reference.CR "" in
  let lf := String Reference.LF "" in
  (csv_reader (csv_writerow ["https://a.com/" +:+ cr; "now"; "200"])).1 =
    [["https://a.com/" +:+ lf; "now"; "200"]] ∧
  (csv_reader ("URL,Timestamp,Status" +:+ csv_writerow ["https://a.com"; "now"; "200"])).1 =
    [["URL"; "Timestamp"; "Statushttps://a.com"; "now"; "200"]].
Proof. split_and!; concretely. Qed.

Example link_pending_twice :
  url_queue requeueing = ["https://a.com/y"] ∧
  url_queue (schedule 1 leaf requeueing) = ["https://a.com/y"; "https://a.com/y"].
Proof. split_and!; concretely. Qed.

Section OnBrackets.
#[local] Existing Instance Brackets.runtime | 0.

Lemma malformed_href_discards_page_witness :
  let url := "https://a.com" in
  let href := "http://[::1/y" in
  status_code Brackets.torn_page = 200%Z ∧
  href ∈ find_all_a_href (text Brackets.torn_page) ∧
  link_of url None href = inl "Invalid IPv6 URL" ∧
  ∃ msg',
    crawl_page (inr Brackets.torn_page) url Brackets.fresh =
    (inr ([], 0%Z),
     set_log_area (log_area Brackets.fresh ++
                   ["Error crawling " +:+ url +:+ ": " +:+ msg'])
       (observe (HttpGet url) Brackets.fresh)).
Proof.
  assert (H1 : status_code Brackets.torn_page = 200%Z) by concretely.
  assert (H2 : "http://[::1/y" ∈ find_all_a_href (text Brackets.torn_page)) by decided.
  assert (H3 : link_of "https://a.com" None "http://[::1/y" = inl "Invalid IPv6 URL")
    by concretely.
  split; [exact H1|]. split; [exact H2|]. split; [exact H3|].
  exact (malformed_href_discards_page Brackets.torn_page "https://a.com"
           "http://[::1/y" "Invalid IPv6 URL" Brackets.fresh H1 H2 H3).
Defined.

End OnBrackets.
